(** * Super-AI-Agent: plan state, phase-clause hook and tool contracts

    A shallow embedding of [src/tools.py] (the agent-management, messaging,
    file and search tools) and of [src/run.py] ([StepPromptHook]) together
    with the properties the design document states about them.

    Conventions.
    - A Python [str] is a [string]; a Python [int] is a [Z]; [Optional[T]]
      is [option T]; a [dict] with string keys is a [gmap string _].
    - Code that raises is modelled in a small state-and-error monad [M]:
      a computation returns either the exception or the value, together
      with the mutable state as the code left it at that point.
    - Console output ([print]) of the tools is not part of the model; the
      lines the event loop of [run_demo] prints are. *)

From Stdlib Require Import ZArith String Ascii List Lia Bool.
From stdpp Require Import base option list gmap strings pretty.

Local Open Scope string_scope.
Local Open Scope Z_scope.

(* ===================================================================== *)
(** ** Python string operations used by the tools *)
(* ===================================================================== *)

Module Str.

(** [s.startswith(p)] *)
Fixpoint startswith (s p : string) {struct p} : bool :=
  match p with
  | "" => true
  | String b p' =>
      match s with
      | "" => false
      | String a s' => if Ascii.eqb a b then startswith s' p' else false
      end
  end.

(** [sub in s] *)
Fixpoint contains (sub s : string) : bool :=
  startswith s sub ||
  match s with
  | "" => false
  | String _ s' => contains sub s'
  end.

(** The scan behind [count] and [replace] for a non-empty pattern: left to
    right, non-overlapping.  [skip] is the number of characters of the
    current match still to be passed over. *)
Fixpoint count_go (sub : string) (skip : nat) (s : string) : nat :=
  match s with
  | "" => 0%nat
  | String _ s' =>
      match skip with
      | S k => count_go sub k s'
      | O =>
          if startswith s sub
          then S (count_go sub (String.length sub - 1) s')
          else count_go sub 0 s'
      end
  end.

(** [s.count(sub)]; the empty pattern matches between any two characters
    and at both ends. *)
Definition count (s sub : string) : nat :=
  match sub with
  | "" => S (String.length s)
  | _ => count_go sub 0 s
  end.

Fixpoint replace_go (old new : string) (skip : nat) (s : string) : string :=
  match s with
  | "" => ""
  | String c s' =>
      match skip with
      | S k => replace_go old new k s'
      | O =>
          if startswith s old
          then new +:+ replace_go old new (String.length old - 1) s'
          else String c (replace_go old new 0 s')
      end
  end.

(** [s.replace("", new)]: [new] before every character and at the end. *)
Fixpoint interleave (new s : string) : string :=
  match s with
  | "" => new
  | String c s' => new +:+ String c (interleave new s')
  end.

(** [s.replace(old, new)]: every occurrence is replaced. *)
Definition replace (s old new : string) : string :=
  match old with
  | "" => interleave new s
  | _ => replace_go old new 0 s
  end.

(** [sep.join(l)] *)
Fixpoint join (sep : string) (l : list string) : string :=
  match l with
  | [] => ""
  | [x] => x
  | x :: l' => x +:+ sep +:+ join sep l'
  end.

(** The line boundaries of [str.splitlines] among the characters a
    [string] can hold (code points below 256): LF, VT, FF, CR, FS, GS, RS
    and NEL. *)
Definition is_linebreak (a : ascii) : bool :=
  match a with
  | "010" | "011" | "012" | "013" | "028" | "029" | "030" | "133" => true
  | _ => false
  end%char.

(** [cur] is the line read so far, last character first. *)
Fixpoint splitlines_go (cur : string) (s : string) : list string :=
  match s with
  | "" => match cur with "" => [] | _ => [String.rev cur] end
  | String a s' =>
      if Ascii.eqb a "013"
      then
        match s' with
        | String "010" s'' => String.rev cur :: splitlines_go "" s''
        | _ => String.rev cur :: splitlines_go "" s'
        end
      else if is_linebreak a
      then String.rev cur :: splitlines_go "" s'
      else splitlines_go (String a cur) s'
  end.

(** [s.splitlines()] *)
Definition splitlines (s : string) : list string := splitlines_go "" s.

(** What reading in text mode does to the characters of a file (universal
    newlines): CR LF and a CR alone are read as LF. *)
Fixpoint universal_newlines (s : string) : string :=
  match s with
  | "" => ""
  | String a s' =>
      if Ascii.eqb a "013"
      then
        match s' with
        | String "010" s'' => String "010" (universal_newlines s'')
        | _ => String "010" (universal_newlines s')
        end
      else String a (universal_newlines s')
  end.

(** [s[k:]] for [0 <= k] *)
Fixpoint drop (k : nat) (s : string) : string :=
  match k, s with
  | O, _ => s
  | S k', String _ s' => drop k' s'
  | S _, "" => ""
  end.

End Str.

(** The newline character as a string: Python's ["\n"]. *)
Definition NL : string := String "010" "".

(* ===================================================================== *)
(** ** Exceptions and the state-and-error monad *)
(* ===================================================================== *)

(** The exception classes the modelled code raises, with their messages. *)
Inductive exn : Type :=
| ValueError (msg : string)
| IndexError (msg : string)
| TypeError (msg : string)
| FileNotFoundError (msg : string)
| IsADirectoryError (msg : string)
| Exception (msg : string).

(** A computation over a mutable state [S]: the exception or the value,
    and the state as the code left it. *)
Definition M (S A : Type) : Type := S -> (exn + A) * S.

Definition ret {S A} (a : A) : M S A := fun s => (inr a, s).
Definition raise {S A} (e : exn) : M S A := fun s => (inl e, s).
Definition bind {S A B} (m : M S A) (k : A -> M S B) : M S B :=
  fun s =>
    match m s with
    | (inl e, s') => (inl e, s')
    | (inr a, s') => k a s'
    end.
Definition get {S} : M S S := fun s => (inr s, s).
Definition modify {S} (f : S -> S) : M S unit := fun s => (inr tt, f s).
(** A pure step that may raise. *)
Definition lift {S A} (r : exn + A) : M S A := fun s => (r, s).

Declare Scope py_scope.
Delimit Scope py_scope with py.
Notation "'do' x <- m ; k" := (bind m (fun x => k))
  (at level 10, x name, m at level 100, k at level 200) : py_scope.
Notation "m ;; k" := (bind m (fun _ => k))
  (at level 100, k at level 200, right associativity) : py_scope.
Local Open Scope py_scope.

(** [l[i]] on a Python list: a negative index counts from the end, and an
    index outside [-len, len) raises [IndexError]. *)
Definition getitem {A} (l : list A) (i : Z) : exn + A :=
  let n := Z.of_nat (length l) in
  let j := if i <? 0 then i + n else i in
  if (0 <=? j) && (j <? n)
  then match l !! Z.to_nat j with
       | Some x => inr x
       | None => inl (IndexError "list index out of range")
       end
  else inl (IndexError "list index out of range").

(** [str(x)] of an [Optional[int]] and of an [Optional[str]] inside an
    f-string. *)
Definition str_opt_int (x : option Z) : string :=
  match x with Some z => pretty z | None => "None" end.
Definition str_opt_str (x : option string) : string :=
  match x with Some s => s | None => "None" end.

(* ===================================================================== *)
(** ** Agent-level state ([src/tools.py]) *)
(* ===================================================================== *)

Record Phase : Type := {
  id : Z;
  title : string;
  required_capabilities : string
}.

(** The value [datetime.fromisoformat] yields (naive fields only). *)
Record datetime : Type := {
  year : Z; month : Z; day : Z; hour : Z; minute : Z; second : Z;
  microsecond : Z
}.

Record ScheduledTask : Type := {
  task_description : string;
  schedule_type : string;
  start_time : datetime
}.

Record AgentState : Type := {
  current_phase_id : option Z;
  goal : option string;
  phases : list Phase;
  completed : bool;
  scheduled_tasks : list ScheduledTask
}.

(** The module-level dictionary as it is when the module is loaded. *)
Definition _agent_state : AgentState := {|
  current_phase_id := None;
  goal := None;
  phases := [];
  completed := false;
  scheduled_tasks := []
|}.

Definition set_current_phase_id (v : option Z) (st : AgentState) : AgentState :=
  {| current_phase_id := v; goal := goal st; phases := phases st;
     completed := completed st; scheduled_tasks := scheduled_tasks st |}.
Definition set_goal (v : option string) (st : AgentState) : AgentState :=
  {| current_phase_id := current_phase_id st; goal := v; phases := phases st;
     completed := completed st; scheduled_tasks := scheduled_tasks st |}.
Definition set_phases (v : list Phase) (st : AgentState) : AgentState :=
  {| current_phase_id := current_phase_id st; goal := goal st; phases := v;
     completed := completed st; scheduled_tasks := scheduled_tasks st |}.
Definition set_completed (v : bool) (st : AgentState) : AgentState :=
  {| current_phase_id := current_phase_id st; goal := goal st;
     phases := phases st; completed := v;
     scheduled_tasks := scheduled_tasks st |}.

Section Tools.

(** [Phase] is a pydantic model; how pydantic prints one is not code of
    this repository.  [Phase_str p] is [str(p)] (what an f-string
    inserts), [Phase_repr p] is [repr(p)] (what printing a list of phases
    inserts for each element). *)
Variable Phase_str : Phase -> string.
Variable Phase_repr : Phase -> string.

(** [str(l)] of a list of phases. *)
Definition str_phases (l : list Phase) : string :=
  "[" +:+ Str.join ", " (map Phase_repr l) +:+ "]".

(** *** Agent management tools *)

(** [agent_update_plan]: the returned dict has the single key
    ["response"]; the model returns its value. *)
Definition agent_update_plan
    (current_phase_id' : option Z) (goal' : option string)
    (phases' : option (list Phase)) : M AgentState string :=
  (match current_phase_id' with
   | Some c => modify (set_current_phase_id (Some c))
   | None => ret tt
   end) ;;
  (match goal' with
   | Some g => modify (set_goal (Some g))
   | None => ret tt
   end) ;;
  (match phases' with
   | Some ps => modify (set_phases ps)
   | None => ret tt
   end) ;;
  do st <- get ;
  ret ("Task plan updated:" +:+ NL +:+ "<task_plan>" +:+ NL +:+ "Goal:" +:+ NL
       +:+ str_opt_str (goal st) +:+ NL +:+ NL +:+ "Phases:" +:+ NL
       +:+ str_phases (phases st) +:+ NL +:+ NL +:+ "Current phase:" +:+ NL
       +:+ str_opt_int (current_phase_id st) +:+ NL +:+ "</task_plan>" +:+ NL).

(** [agent_advance_phase]; the returned dict's ["response"] value. *)
Definition agent_advance_phase (from_phase_id to_phase_id : Z)
    : M AgentState string :=
  do st <- get ;
  (if decide (current_phase_id st <> Some from_phase_id)
   then raise (ValueError
          ("Cannot advance: agent is in phase "
           +:+ str_opt_int (current_phase_id st) +:+ ", not "
           +:+ pretty from_phase_id +:+ "."))
   else ret tt) ;;
  modify (set_current_phase_id (Some to_phase_id)) ;;
  do st <- get ;
  ret ("Advanced to the next phase:" +:+ NL +:+ "<task_plan>" +:+ NL
       +:+ "Goal:" +:+ NL +:+ str_opt_str (goal st) +:+ NL +:+ NL
       +:+ "Phases:" +:+ NL +:+ str_phases (phases st) +:+ NL +:+ NL
       +:+ "Previous phase: " +:+ str_opt_int (current_phase_id st)
       +:+ NL +:+ NL
       +:+ "Next phase: " +:+ pretty to_phase_id +:+ NL
       +:+ "</task_plan>" +:+ NL
       +:+ "<best_practices>" +:+ NL
       +:+ "[Relevant best practices for the new phase]" +:+ NL
       +:+ "</best_practices>" +:+ NL
       +:+ "<related_knowledge>" +:+ NL
       +:+ "[Relevant knowledge for the new phase]" +:+ NL
       +:+ "</related_knowledge>").

(** [agent_end_task] *)
Definition agent_end_task : M AgentState string :=
  modify (set_completed true) ;;
  ret "ok".

End Tools.

(* ===================================================================== *)
(** ** The phase-clause hook ([src/run.py], [StepPromptHook]) *)
(* ===================================================================== *)

(** What the hook mutates: its own [self.current_phase_id] and the agent's
    [instructions]. *)
Record HookEnv : Type := {
  self_current_phase_id : option Z;
  agent_instructions : string
}.

Definition set_self_current_phase_id (v : option Z) (h : HookEnv) : HookEnv :=
  {| self_current_phase_id := v; agent_instructions := agent_instructions h |}.
Definition set_agent_instructions (v : string) (h : HookEnv) : HookEnv :=
  {| self_current_phase_id := self_current_phase_id h;
     agent_instructions := v |}.

(** [StepPromptHook.__init__] applied to an agent whose instructions are
    [prompt]. *)
Definition StepPromptHook_init (prompt : string) : HookEnv :=
  {| self_current_phase_id := None; agent_instructions := prompt |}.

Section Hook.

Variable Phase_str : Phase -> string.

(** The f-string of lines 64 and 70 of [run.py] (the same template twice)
    for phase number [k], goal [g] and phase [p]. *)
Definition phase_clause (k : Z) (g : option string) (p : Phase) : string :=
  "You are in phase " +:+ pretty k +:+ ", with the goal of "
  +:+ str_opt_str g +:+ " and the current phase is " +:+ Phase_str p
  +:+ ". If this is empty, then create a plan first. If it is not empty, then continue with the current phase, and consider this as your main task.".

(** [StepPromptHook.on_tool_end]; [st] is [_agent_state] as the hook
    finds it.  [None > 1] is a [TypeError] in Python. *)
Definition on_tool_end (st : AgentState) : M HookEnv unit :=
  let phase_id := current_phase_id st in
  do h <- get ;
  if decide (self_current_phase_id h = phase_id) then ret tt
  else
    do pid <- lift (match phase_id with
                    | Some z => inr z
                    | None => inl (TypeError
                        "'>' not supported between instances of 'NoneType' and 'int'")
                    end) ;
    (if 1 <? pid
     then
       do p <- lift (getitem (phases st) (pid - 2)) ;
       let last_phase := phase_clause (pid - 1) (goal st) p in
       do h <- get ;
       if Str.contains last_phase (agent_instructions h)
       then modify (set_agent_instructions
                      (Str.replace (agent_instructions h) last_phase ""))
       else ret tt
     else ret tt) ;;
    modify (set_self_current_phase_id phase_id) ;;
    do p <- lift (getitem (phases st) (pid - 1)) ;
    let current_phase := phase_clause pid (goal st) p in
    do h <- get ;
    modify (set_agent_instructions
              (agent_instructions h +:+ NL +:+ NL +:+ current_phase)).

(** *** A run of tool calls

    The loop that calls the tools and then the hook belongs to the agents
    SDK, not to this repository.  It is modelled as the design document
    describes it: the tool runs on the plan state; an exception of the
    tool is handed to the model as a result, the state staying as the tool
    left it; then [on_tool_end] fires.  An exception of the hook ends the
    run.  Every call is a turn of its own: when the model asks for several
    tools in one turn, the SDK may run them all before their hooks fire, and
    such turns are not what [run_tools] describes. *)
Variable Phase_repr : Phase -> string.

Inductive ToolCall : Type :=
| CallUpdatePlan (current_phase_id' : option Z) (goal' : option string)
    (phases' : option (list Phase))
| CallAdvancePhase (from_phase_id to_phase_id : Z)
| CallEndTask
| CallOther.

Definition exec_tool (c : ToolCall) (st : AgentState) : AgentState :=
  match c with
  | CallUpdatePlan c g ps => snd (agent_update_plan Phase_repr c g ps st)
  | CallAdvancePhase a b => snd (agent_advance_phase Phase_repr a b st)
  | CallEndTask => snd (agent_end_task st)
  | CallOther => st
  end.

Definition tool_step (c : ToolCall) : M (AgentState * HookEnv) unit :=
  fun w =>
    let st' := exec_tool c (fst w) in
    let '(r, h') := on_tool_end st' (snd w) in
    (r, (st', h')).

Fixpoint run_tools (cs : list ToolCall) : M (AgentState * HookEnv) unit :=
  match cs with
  | [] => ret tt
  | c :: cs' => tool_step c ;; run_tools cs'
  end.

End Hook.

(* ===================================================================== *)
(** ** Messaging, file and search tools ([src/tools.py]) *)
(* ===================================================================== *)

(** Truth value of an [Optional[List[_]]]: [None] and [[]] are falsy. *)
Definition truthy {A} (o : option (list A)) : bool :=
  match o with
  | Some (_ :: _) => true
  | _ => false
  end.

Section Messaging.

(** The builtin [input]: it shows the prompt and returns the reply. *)
Variable input : string -> string.

(** [message_ask_user]; [" / ".join(options)] is reached only with a
    list. *)
Definition message_ask_user (text : string)
    (attachments options : option (list string)) : exn + string :=
  let prompt := "[Ask] " +:+ text +:+ NL in
  if truthy options
  then
    if negb (truthy options)
    then inl (ValueError "Options list must be non-empty if provided")
    else inr (input (prompt +:+ Str.join " / " (default [] options)
                     +:+ NL +:+ "> "))
  else inr (input (prompt +:+ "> ")).

End Messaging.

(** A path of the file system holds a file with the characters stored in
    it, or a directory.  [Path.read_text] reads in text mode, which turns
    CR LF and CR into LF; [Path.write_text] and writing to a file opened with
    mode ["a"] store the characters as they are, as on every system whose
    line separator is ["\n"]. *)
Inductive node : Type :=
| File (content : string)
| Dir.

(** [l[start:stop]] on a Python list. *)
Definition slice {A} (l : list A) (start stop : Z) : list A :=
  let n := Z.of_nat (length l) in
  let norm i := if i <? 0 then Z.max 0 (i + n) else Z.min i n in
  take (Z.to_nat (norm stop - norm start)) (drop (Z.to_nat (norm start)) l).

Section Files.

(** [_resolve]: [os.path.expanduser] and [Path.resolve], as a key of the
    file system. *)
Variable _resolve : string -> string.

Definition read_text (p : string) : M (gmap string node) string :=
  fun fs =>
    match fs !! p with
    | Some (File c) => (inr (Str.universal_newlines c), fs)
    | Some Dir => (inl (IsADirectoryError p), fs)
    | None => (inl (FileNotFoundError p), fs)
    end.

Definition write_text (p : string) (c : string) : M (gmap string node) unit :=
  fun fs =>
    match fs !! p with
    | Some Dir => (inl (IsADirectoryError p), fs)
    | _ => (inr tt, <[p := File c]> fs)
    end.

(** [file_read] *)
Definition file_read (file : string) (start_line end_line : option Z)
    (sudo : bool) : M (gmap string node) string :=
  let p := _resolve file in
  do fs <- get ;
  (if decide (fs !! p = None)
   then raise (FileNotFoundError ("File not found: " +:+ file))
   else ret tt) ;;
  do content <- read_text p ;
  if negb (bool_decide (start_line = None))
     || negb (bool_decide (end_line = None))
  then
    let lines := Str.splitlines content in
    let start := default 0 start_line in
    let end_ := default (Z.of_nat (length lines)) end_line in
    if (start <? 0) || (Z.of_nat (length lines) <? end_) || (end_ <=? start)
    then raise (ValueError
           ("Invalid line range: start_line=" +:+ str_opt_int start_line
            +:+ ", end_line=" +:+ str_opt_int end_line +:+ ", file has "
            +:+ pretty (Z.of_nat (length lines)) +:+ " lines"))
    else ret (Str.join NL (slice lines start end_))
  else ret content.

(** [file_replace_text]; the returned dict's ["response"] value. *)
Definition file_replace_text (path old_text new_text : string)
    : M (gmap string node) string :=
  let p := _resolve path in
  do content <- read_text p ;
  (if (1 <? Str.count content old_text)%nat
   then raise (ValueError
          ("Error: '" +:+ old_text +:+
           "' appears multiple times in the file. Please provide a more specific old_text to avoid ambiguity."))
   else ret tt) ;;
  write_text p (Str.replace content old_text new_text) ;;
  ret ("File edited: " +:+ path +:+ ", Latest content with line numbers: "
       +:+ new_text).

End Files.

(** A value of the query-parameter dict. *)
Inductive pyval : Type :=
| PStr (s : string)
| PInt (z : Z).

Section Search.

(** The parsed JSON body of a response. *)
Variable Json : Type.

Record Response : Type := {
  status_code : Z;
  text : string;
  json : Json
}.

(** [os.getenv(name, default)] and [requests.get(url, params=params)]. *)
Variable getenv : string -> string -> string.
Variable requests_get : string -> gmap string pyval -> Response.

Definition date_restrict_map : gmap string string :=
  {[ "past_hour" := "h1"; "past_day" := "d1"; "past_week" := "w1";
     "past_month" := "m1"; "past_year" := "y1" ]}.

(** Lines 478-494 of [info_search_web]: the URL and the parameters of the
    request. *)
Definition info_search_web_request (query date_range : string) (num : Z)
    : string * gmap string pyval :=
  let api_key := getenv "GOOGLE_API_KEY" "Your Google API Key" in
  let cx := getenv "GOOGLE_SEARCH_CX" "" in
  let url := "https://www.googleapis.com/customsearch/v1" in
  let params : gmap string pyval :=
    {[ "q" := PStr query; "num" := PInt num; "key" := PStr api_key;
       "cx" := PStr cx ]} in
  let params :=
    if decide (date_range <> "all")
    then match date_restrict_map !! date_range with
         | Some v => <["dateRestrict" := PStr v]> params
         | None => params
         end
    else params in
  (url, params).

(** [info_search_web]: lines 496-503 applied to that request. *)
Definition info_search_web (query date_range : string) (num : Z)
    : exn + Json :=
  let '(url, params) := info_search_web_request query date_range num in
  let response := requests_get url params in
  if decide (status_code response <> 200)
  then inl (Exception ("Google Custom Search API error: "
                       +:+ pretty (status_code response) +:+ ", "
                       +:+ text response))
  else inr (json response).

End Search.

Arguments status_code {Json} _.
Arguments text {Json} _.
Arguments json {Json} _.
Arguments info_search_web {Json} _ _ _ _ _.

(* ===================================================================== *)
(** ** Concrete data for the examples *)
(* ===================================================================== *)

(** How pydantic prints a [Phase] whose strings hold no quote, backslash or
    control character: [str(p)] and [repr(p)]. *)
Definition Phase_str_plain (p : Phase) : string :=
  "id=" +:+ pretty (id p) +:+ " title='" +:+ title p
  +:+ "' required_capabilities='" +:+ required_capabilities p +:+ "'".
Definition Phase_repr_plain (p : Phase) : string :=
  "Phase(id=" +:+ pretty (id p) +:+ ", title='" +:+ title p
  +:+ "', required_capabilities='" +:+ required_capabilities p +:+ "')".

(** The plan of the end-to-end scenario of the design document, with a third
    phase added. *)
Definition demo_phases : list Phase :=
  [ {| id := 1; title := "research"; required_capabilities := "web-search" |};
    {| id := 2; title := "deliver"; required_capabilities := "messaging" |};
    {| id := 3; title := "archive"; required_capabilities := "" |} ].

Definition demo_plan (k : Z) : AgentState :=
  {| current_phase_id := Some k; goal := Some "write report";
     phases := demo_phases; completed := false; scheduled_tasks := [] |}.

(** *** The single-clause property

    The text every phase clause starts with. *)
Definition phase_marker : string := "You are in phase ".

(** [n] times the separator ["\n\n"] the hook puts before a clause. *)
Fixpoint blank_lines (n : nat) : string :=
  match n with
  | O => ""
  | S m => blank_lines m +:+ NL +:+ NL
  end.

(** The plan is created in phase 1, then advanced one phase at a time up to
    phase [n]: [n] phase changes. *)
Definition sequential_calls (g : string) (ps : list Phase) (n : nat)
    : list ToolCall :=
  match n with
  | O => []
  | S m =>
      CallUpdatePlan (Some 1) (Some g) (Some ps)
      :: map (fun i => CallAdvancePhase (Z.of_nat i) (Z.of_nat (S i)))
           (seq 1 m)
  end.

(** The plan state those calls lead to. *)
Definition plan_at (g : string) (ps : list Phase) (n : nat) : AgentState :=
  {| current_phase_id := Some (Z.of_nat n); goal := Some g; phases := ps;
     completed := false; scheduled_tasks := [] |}.

(** [text] holds exactly one phase clause of the plan [st], that of the
    current phase: the clause of the current phase is counted once, and the
    clause of no other phase of the plan occurs. *)
Definition single_clause (Phase_str : Phase -> string) (st : AgentState)
    (text : string) : Prop :=
  exists k : Z,
    current_phase_id st = Some k
    /\ (exists p, phases st !! Z.to_nat (k - 1) = Some p /\ 1 <= k)
    /\ forall (i : nat) (p : Phase),
         phases st !! i = Some p ->
         let c := phase_clause Phase_str (Z.of_nat (S i)) (goal st) p in
         (Z.of_nat (S i) = k -> Str.count text c = 1%nat)
         /\ (Z.of_nat (S i) <> k -> Str.contains c text = false).

(** A plan created in phase 1 and then moved to phase 3 by
    [agent_update_plan], the tool its docstring names for skipping phases. *)
Definition jump_calls : list ToolCall :=
  [ CallUpdatePlan (Some 1) (Some "write report") (Some demo_phases);
    CallUpdatePlan (Some 3) None None ].

(** The end-to-end scenario of the design document: the plan is created
    with its first two phases, a file is written, the phase is advanced, the
    user is notified and the task is ended. *)
Definition scenario_calls : list ToolCall :=
  [ CallUpdatePlan (Some 1) (Some "write report") (Some (take 2 demo_phases));
    CallOther;
    CallAdvancePhase 1 2;
    CallOther;
    CallEndTask ].

(** A small file system: two files of the design document's examples and
    a file of five lines. *)
Definition text_a_a : string := "a" +:+ NL +:+ "a" +:+ NL.
Definition text_a_b : string := "a" +:+ NL +:+ "b" +:+ NL.
Definition text_five : string :=
  "l0" +:+ NL +:+ "l1" +:+ NL +:+ "l2" +:+ NL +:+ "l3" +:+ NL +:+ "l4" +:+ NL.

Definition demo_fs : gmap string node :=
  {[ "/aa.txt" := File text_a_a; "/ab.txt" := File text_a_b;
     "/five.txt" := File text_five ]}.

(** A file with CR LF line endings. *)
Definition CR : string := String "013" "".
Definition text_crlf : string := "a" +:+ CR +:+ NL +:+ "b" +:+ CR +:+ NL.
Definition crlf_fs : gmap string node := {[ "/dos.txt" := File text_crlf ]}.

(** Paths that are already absolute resolve to themselves. *)
Definition resolve_id (path : string) : string := path.

(* ===================================================================== *)
(** ** The remaining tools and the event loop *)
(* ===================================================================== *)

Definition append_scheduled_task (t : ScheduledTask) (st : AgentState)
    : AgentState :=
  {| current_phase_id := current_phase_id st; goal := goal st;
     phases := phases st; completed := completed st;
     scheduled_tasks := scheduled_tasks st ++ [t] |}.

Section Schedule.

(** [datetime.fromisoformat]; [None] stands for its [ValueError]. *)
Variable fromisoformat : string -> option datetime.

(** [agent_schedule_task] *)
Definition agent_schedule_task
    (task_description' schedule_type' start_time' : string)
    : M AgentState unit :=
  do start_dt <- lift (match fromisoformat start_time' with
                       | Some d => inr d
                       | None => inl (ValueError
                           "start_time must be in ISO format, e.g. '2025-06-18 09:00:00'")
                       end) ;
  modify (append_scheduled_task
            {| task_description := task_description';
               schedule_type := schedule_type';
               start_time := start_dt |}).

Variable Phase_repr : Phase -> string.

(** A call of one of the four agent-management tools.  What a call returns
    goes to the model; an exception of the tool is reported to the model as
    well, and the plan state stays as the tool left it. *)
Inductive PlanCall : Type :=
| PUpdatePlan (current_phase_id' : option Z) (goal' : option string)
    (phases' : option (list Phase))
| PAdvancePhase (from_phase_id to_phase_id : Z)
| PEndTask
| PScheduleTask (task_description' schedule_type' start_time' : string).

Definition plan_call (c : PlanCall) (st : AgentState) : AgentState :=
  match c with
  | PUpdatePlan c g ps => snd (agent_update_plan Phase_repr c g ps st)
  | PAdvancePhase a b => snd (agent_advance_phase Phase_repr a b st)
  | PEndTask => snd (agent_end_task st)
  | PScheduleTask d t s => snd (agent_schedule_task d t s st)
  end.

Definition plan_calls (cs : list PlanCall) (st : AgentState) : AgentState :=
  fold_left (fun st c => plan_call c st) cs st.

End Schedule.

Section MoreFiles.

Variable _resolve : string -> string.

(** [Path.parent] of a resolved path, [Path.mkdir(parents=True,
    exist_ok=True)] and [shutil.rmtree]: the directory structure is the
    operating system's and is not spelled out here. *)
Variable parent : string -> string.
Variable mkdir : string -> M (gmap string node) unit.
Variable rmtree : string -> M (gmap string node) unit.

(** Writing to a file opened with mode ["a"]: a missing file is created. *)
Definition append_text (p : string) (c : string) : M (gmap string node) unit :=
  fun fs =>
    match fs !! p with
    | Some Dir => (inl (IsADirectoryError p), fs)
    | Some (File old) => (inr tt, <[p := File (old +:+ c)]> fs)
    | None => (inr tt, <[p := File c]> fs)
    end.

(** [Path.unlink(missing_ok=True)] on a path that is no directory. *)
Definition unlink_missing_ok (p : string) : M (gmap string node) unit :=
  modify (delete p).

(** [file_write]; the returned dict's ["response"] value. *)
Definition file_write (path content : string) : M (gmap string node) string :=
  let p := _resolve path in
  mkdir (parent p) ;;
  write_text p content ;;
  ret ("File written: " +:+ path).

(** [file_append_text] *)
Definition file_append_text (path content : string)
    : M (gmap string node) string :=
  let p := _resolve path in
  mkdir (parent p) ;;
  append_text p content ;;
  ret ("File appended: " +:+ path).

(** [file_delete] *)
Definition file_delete (path : string) : M (gmap string node) string :=
  let p := _resolve path in
  do fs <- get ;
  (match fs !! p with
   | Some Dir => rmtree p
   | _ => unlink_missing_ok p
   end) ;;
  ret ("File deleted: " +:+ path).

End MoreFiles.

(** No character of [s] is a line boundary of [str.splitlines]. *)
Fixpoint no_linebreak (s : string) : bool :=
  match s with
  | "" => true
  | String a s' => negb (Str.is_linebreak a) && no_linebreak s'
  end.

Section Descriptions.

(** The values a decoded JSON document holds, and [str] on them. *)
Variable V : Type.
Variable py_str : V -> string.

(** What [json.loads] hands to a description: a dict, or another value. *)
Inductive pyargs : Type :=
| ArgsDict (d : gmap string V)
| ArgsOther (v : V).

(** [f"{args.get(k)}"]: a missing key prints as [None]; on a value that is
    no dict [args.get] raises [AttributeError], here [None]. *)
Definition args_get (args : pyargs) (k : string) : option string :=
  match args with
  | ArgsDict d => Some (match d !! k with Some v => py_str v | None => "None" end)
  | ArgsOther _ => None
  end.

(** [tool_description_map] *)
Definition tool_description_map : gmap string (pyargs -> option string) :=
  list_to_map
    [ ("file_write",
       fun args => p ← args_get args "path"; Some ("Creating file " +:+ p));
      ("file_replace_text",
       fun args => p ← args_get args "path"; Some ("Editing file " +:+ p));
      ("file_append_text",
       fun args => p ← args_get args "path";
                   Some ("Adding content to file " +:+ p));
      ("file_delete",
       fun args => p ← args_get args "path"; Some ("Deleting file " +:+ p));
      ("file_read",
       fun args => p ← args_get args "file"; Some ("Reading file " +:+ p));
      ("file_list",
       fun args => p ← args_get args "path";
                   Some ("Listing contents of directory " +:+ p));
      ("file_make_dir",
       fun args => p ← args_get args "path";
                   Some ("Creating directory " +:+ p));
      ("file_copy",
       fun args => s ← args_get args "source";
                   d ← args_get args "destination";
                   Some ("Copying " +:+ s +:+ " to " +:+ d));
      ("file_move",
       fun args => s ← args_get args "source";
                   d ← args_get args "destination";
                   Some ("Moving " +:+ s +:+ " to " +:+ d));
      ("agent_update_plan", fun _ => Some "Updating task plan");
      ("agent_advance_phase",
       fun args => a ← args_get args "from_phase_id";
                   b ← args_get args "to_phase_id";
                   Some ("Advancing from phase " +:+ a +:+ " to " +:+ b));
      ("agent_end_task", fun _ => Some "Ending current task");
      ("agent_schedule_task",
       fun args => d ← args_get args "task_description";
                   Some ("Scheduling task: " +:+ d));
      ("message_notify_user", fun _ => Some "Sending notification to user");
      ("message_ask_user", fun _ => Some "Asking user for input");
      ("message_email_user",
       fun args => r ← args_get args "recipient";
                   Some ("Sending email to " +:+ r));
      ("info_search_web",
       fun args => q ← args_get args "query";
                   Some ("Searching web for: " +:+ q)) ].

(** [get_tool_description]; [None] when the description raises. *)
Definition get_tool_description (tool_name : string) (args : pyargs)
    : option string :=
  match tool_description_map !! tool_name with
  | Some f => f args
  | None => Some ("Using tool: " +:+ tool_name)
  end.

(** *** The event loop of [run_demo] ([src/run.py], lines 131-175)

    The events are the SDK's.  A raw tool call is a code-interpreter call or
    a function call (the agent has function tools only); [arguments] is
    [None] when the attribute is missing. *)
Inductive RawItem : Type :=
| CodeInterpreterCall (code : string)
| FunctionToolCall (name : string) (arguments : option string).

(** [text] is what [ItemHelpers.text_message_output] returns. *)
Inductive RunItem : Type :=
| ToolCallItem (raw : RawItem)
| MessageOutputItem (text : string)
| OtherItem.

Inductive StreamEvent : Type :=
| AgentUpdatedStreamEvent (new_agent_name : string)
| RunItemStreamEvent (item : RunItem)
| OtherStreamEvent.

(** [json.loads]; [None] stands for its exception. *)
Variable json_loads : string -> option pyargs.

(** The two box-drawing characters around the agent-switch line. *)
Variable rule : string.

(** The lines one tool call prints, and whether the loop goes on. *)
Definition print_tool_call (raw : RawItem) : list string * bool :=
  match raw with
  | CodeInterpreterCall code =>
      (["====Code Interpreter Call====="; code;
        "====End of Code Interpreter Call====="], true)
  | FunctionToolCall name arguments =>
      if bool_decide (name = "agent_end_task")
      then (["====End of Task====="], false)
      else
        let arguments := default "{}" arguments in
        match json_loads arguments ≫= get_tool_description name with
        | Some description => (["[Tool Call] " +:+ description], true)
        | None =>
            (["[Tool Call] " +:+ name; "Arguments: " +:+ arguments], true)
        end
  end.

(** The body of [async for event in stream.stream_events()]: the lines
    printed, in order. *)
Fixpoint stream_loop (events : list StreamEvent) : list string :=
  match events with
  | [] => []
  | AgentUpdatedStreamEvent name :: rest =>
      (NL +:+ rule +:+ " Switched to agent: " +:+ name +:+ " " +:+ rule +:+ NL)
      :: stream_loop rest
  | RunItemStreamEvent (ToolCallItem raw) :: rest =>
      let '(lines, go_on) := print_tool_call raw in
      lines ++ (if go_on then stream_loop rest else [])
  | RunItemStreamEvent (MessageOutputItem text) :: rest =>
      ("[Assistant] " +:+ text) :: stream_loop rest
  | _ :: rest => stream_loop rest
  end.

End Descriptions.

Arguments ArgsDict {V} _.
Arguments ArgsOther {V} _.

(** The tools [build_agent] registers, by the names the SDK gives them (the
    function names), in the order of lines 84-100 of [run.py]. *)
Definition agent_tool_names : list string :=
  [ "agent_update_plan"; "agent_advance_phase"; "agent_end_task";
    "agent_schedule_task"; "message_notify_user"; "message_ask_user";
    "message_email_user"; "file_read"; "file_write"; "file_append_text";
    "file_replace_text"; "file_delete"; "file_list"; "file_make_dir";
    "file_copy"; "file_move"; "info_search_web" ].

(** The calls that cannot change [current_phase_id]: every call but an
    advance and a plan update that names a phase id. *)
Definition leaves_phase_id (c : ToolCall) : bool :=
  match c with
  | CallAdvancePhase _ _ => false
  | CallUpdatePlan (Some _) _ _ => false
  | _ => true
  end.

(** How many of the calls schedule a task. *)
Definition schedule_calls (cs : list PlanCall) : nat :=
  length (List.filter (fun c => match c with PScheduleTask _ _ _ => true
                                | _ => false end) cs).

(** What is assumed of [mkdir] where files matter: whether it returns or
    raises, it creates, changes and removes no file. *)
Definition mkdir_keeps_files (mkdir : string -> M (gmap string node) unit)
    : Prop :=
  forall (d : string) (fs : gmap string node) (q c : string),
    snd (mkdir d fs) !! q = Some (File c) <-> fs !! q = Some (File c).

(** The event that ends the loop: a call of the tool [agent_end_task]. *)
Definition is_end_task_call (e : StreamEvent) : bool :=
  match e with
  | RunItemStreamEvent (ToolCallItem (FunctionToolCall name _)) =>
      bool_decide (name = "agent_end_task")
  | _ => false
  end.

(** *** Concrete data for the further examples *)

(** A [mkdir] that knows one level: an existing directory is kept, a missing
    one is created, a file in the way is an error (Python's
    [FileExistsError], for which the model has no constructor of its own). *)
Definition mkdir_flat (d : string) : M (gmap string node) unit :=
  fun fs =>
    match fs !! d with
    | None => (inr tt, <[d := Dir]> fs)
    | Some Dir => (inr tt, fs)
    | Some (File _) => (inl (Exception ("[Errno 17] File exists: " +:+ d)), fs)
    end.

(** An [rmtree] that knows one level: the directory entry goes. *)
Definition rmtree_flat (d : string) : M (gmap string node) unit :=
  modify (delete d).

(** A decoder that knows the empty object, over string values. *)
Definition json_loads_demo (s : string) : option (pyargs string) :=
  if bool_decide (s = "{}") then Some (ArgsDict ∅) else None.

(** A run of events: a message, a file read, the end of the task, and a
    message the loop never gets to. *)
Definition demo_events_before : list StreamEvent :=
  [ RunItemStreamEvent (MessageOutputItem "Working on it.");
    RunItemStreamEvent (ToolCallItem (FunctionToolCall "file_read" (Some "{}"))) ].
Definition demo_events_after : list StreamEvent :=
  [ RunItemStreamEvent (MessageOutputItem "never shown") ].

(** Every file of the examples lies in the root directory. *)
Definition parent_root (p : string) : string := "/".

(** A parser that knows one timestamp. *)
Definition fromisoformat_demo (s : string) : option datetime :=
  if bool_decide (s = "2025-06-18 09:00:00")
  then Some {| year := 2025; month := 6; day := 18; hour := 9; minute := 0;
               second := 0; microsecond := 0 |}
  else None.

(* ===================================================================== *)
(** * Properties *)
(* ===================================================================== *)

(** ** Sanity checks of the string operations against CPython *)

Example count_aa : Str.count "aaa" "aa" = 1%nat.
Proof. reflexivity. Qed.
Example count_empty : Str.count "abc" "" = 4%nat.
Proof. reflexivity. Qed.
Example replace_aa : Str.replace "aaa" "aa" "x" = "xa".
Proof. reflexivity. Qed.
Example replace_empty : Str.replace "abc" "" "-" = "-a-b-c-".
Proof. reflexivity. Qed.
Example splitlines_ex :
  Str.splitlines (String "a" (String "010" (String "010" (String "b"
    (String "013" (String "010" "c")))))) = ["a"; ""; "b"; "c"].
Proof. reflexivity. Qed.
Example splitlines_trailing :
  Str.splitlines (String "a" (String "010" "")) = ["a"].
Proof. reflexivity. Qed.

(** ** Plan-state operations *)

Section PlanState.

Variable Phase_repr : Phase -> string.

Lemma advance_phase_ok (st : AgentState) (a b : Z) :
  current_phase_id st = Some a ->
  exists resp,
    agent_advance_phase Phase_repr a b st
    = (inr resp, set_current_phase_id (Some b) st).
Proof.
  intros Hcur.
  unfold agent_advance_phase, bind, get, modify, ret, raise.
  destruct (decide (current_phase_id st <> Some a)) as [Hne|_].
  - contradiction.
  - eexists; reflexivity.
Qed.

Lemma advance_phase_mismatch (st : AgentState) (a b : Z) :
  current_phase_id st <> Some a ->
  exists msg,
    agent_advance_phase Phase_repr a b st = (inl (ValueError msg), st).
Proof.
  intros Hcur.
  unfold agent_advance_phase, bind, get, modify, ret, raise.
  destruct (decide (current_phase_id st <> Some a)) as [_|Heq].
  - eexists; reflexivity.
  - contradiction.
Qed.

(** C2. [agent_advance_phase] raises (the [ValueError] the design calls
    PhaseMismatch) exactly when [from_phase_id] differs from the current
    phase id, and then the plan state is untouched; otherwise it returns a
    response and the current phase id becomes [to_phase_id], whatever
    [to_phase_id] is. *)
Theorem advance_phase_validation (st : AgentState) (a b : Z) :
  ((exists msg, fst (agent_advance_phase Phase_repr a b st)
                = inl (ValueError msg))
   <-> current_phase_id st <> Some a)
  /\ (current_phase_id st <> Some a ->
      snd (agent_advance_phase Phase_repr a b st) = st)
  /\ (current_phase_id st = Some a ->
      (exists resp, fst (agent_advance_phase Phase_repr a b st) = inr resp)
      /\ snd (agent_advance_phase Phase_repr a b st)
         = set_current_phase_id (Some b) st
      /\ current_phase_id (snd (agent_advance_phase Phase_repr a b st))
         = Some b).
Proof.
  split; [split|split].
  - intros [msg Hmsg] Heq.
    destruct (advance_phase_ok st a b Heq) as [resp Hresp].
    rewrite Hresp in Hmsg. discriminate.
  - intros Hne. destruct (advance_phase_mismatch st a b Hne) as [msg Hmsg].
    exists msg. now rewrite Hmsg.
  - intros Hne. destruct (advance_phase_mismatch st a b Hne) as [msg Hmsg].
    now rewrite Hmsg.
  - intros Heq. destruct (advance_phase_ok st a b Heq) as [resp Hresp].
    rewrite Hresp. simpl. eauto.
Qed.

(** C6 (what the code returns). After a successful advance from [a] to [b]
    the text after "Previous phase: " is [b], the phase just entered, and so
    is the text after "Next phase: ": the state is read after it has been
    overwritten. *)
Theorem advance_phase_snapshot (st : AgentState) (a b : Z) :
  fst (agent_advance_phase Phase_repr a b (set_current_phase_id (Some a) st))
  = inr ("Advanced to the next phase:" +:+ NL +:+ "<task_plan>" +:+ NL
         +:+ "Goal:" +:+ NL +:+ str_opt_str (goal st) +:+ NL +:+ NL
         +:+ "Phases:" +:+ NL +:+ str_phases Phase_repr (phases st)
         +:+ NL +:+ NL
         +:+ "Previous phase: " +:+ pretty b +:+ NL +:+ NL
         +:+ "Next phase: " +:+ pretty b +:+ NL
         +:+ "</task_plan>" +:+ NL
         +:+ "<best_practices>" +:+ NL
         +:+ "[Relevant best practices for the new phase]" +:+ NL
         +:+ "</best_practices>" +:+ NL
         +:+ "<related_knowledge>" +:+ NL
         +:+ "[Relevant knowledge for the new phase]" +:+ NL
         +:+ "</related_knowledge>").
Proof.
  unfold agent_advance_phase, bind, get, modify, ret, raise.
  destruct (decide (current_phase_id (set_current_phase_id (Some a) st)
                    <> Some a)) as [Hne|_].
  - now destruct Hne.
  - reflexivity.
Qed.

(** C8. [agent_update_plan] never touches [completed] nor
    [scheduled_tasks]; each of the three other fields takes the argument's
    value when the argument is present and keeps its own otherwise; the call
    always returns. *)
Theorem update_plan_frame (c : option Z) (g : option string)
    (ps : option (list Phase)) (st : AgentState) :
  let st' := snd (agent_update_plan Phase_repr c g ps st) in
  completed st' = completed st
  /\ scheduled_tasks st' = scheduled_tasks st
  /\ current_phase_id st'
     = match c with Some v => Some v | None => current_phase_id st end
  /\ goal st' = match g with Some v => Some v | None => goal st end
  /\ phases st' = match ps with Some v => v | None => phases st end
  /\ exists resp, fst (agent_update_plan Phase_repr c g ps st) = inr resp.
Proof.
  unfold agent_update_plan, bind, get, modify, ret.
  destruct c, g, ps; simpl; repeat split; eauto.
Qed.

End PlanState.

(** The example of the design document: in phase 3, advancing from 2 fails
    and leaves the phase, advancing from 3 to 4 succeeds. *)
Example advance_from_stale_phase :
  exists msg,
    agent_advance_phase Phase_repr_plain 2 3 (demo_plan 3)
    = (inl (ValueError msg), demo_plan 3).
Proof. eexists. reflexivity. Qed.

Example advance_3_4 :
  current_phase_id (snd (agent_advance_phase Phase_repr_plain 3 4 (demo_plan 3)))
  = Some 4.
Proof. reflexivity. Qed.

(** C6 (the failing input). From phase 1 to phase 2 the response names 2 as
    the previous phase and never mentions phase 1 as such. *)
Example advance_1_2_previous_phase :
  exists resp,
    fst (agent_advance_phase Phase_repr_plain 1 2 (demo_plan 1)) = inr resp
    /\ Str.contains "Previous phase: 2" resp = true
    /\ Str.contains "Previous phase: 1" resp = false
    /\ Str.contains "Next phase: 2" resp = true.
Proof. eexists. split; [reflexivity|]. vm_compute. auto. Qed.

(** ** The hook: idempotence and list indexing *)

Lemma getitem_in_range {A} (l : list A) (i : Z) :
  0 <= i < Z.of_nat (length l) -> exists x, getitem l i = inr x.
Proof.
  intros Hi. unfold getitem.
  destruct (Z.ltb_spec i 0) as [Hneg|_]; [lia|].
  destruct (Z.leb_spec 0 i) as [_|Hneg]; [|lia].
  destruct (Z.ltb_spec i (Z.of_nat (length l))) as [_|Hge]; [|lia].
  simpl.
  destruct (l !! Z.to_nat i) as [x|] eqn:Hx; [now exists x|].
  apply lookup_ge_None in Hx. lia.
Qed.

Lemma getitem_too_large {A} (l : list A) (i : Z) :
  Z.of_nat (length l) <= i ->
  getitem l i = inl (IndexError "list index out of range").
Proof.
  intros Hi. unfold getitem.
  destruct (Z.ltb_spec i 0) as [Hneg|_]; [lia|].
  destruct (Z.ltb_spec i (Z.of_nat (length l))) as [Hlt|_]; [lia|].
  now rewrite andb_false_r.
Qed.

Section HookProperties.

Variable Phase_str : Phase -> string.

Lemma on_tool_end_same (st : AgentState) (h : HookEnv) :
  self_current_phase_id h = current_phase_id st ->
  on_tool_end Phase_str st h = (inr tt, h).
Proof.
  intros Heq. unfold on_tool_end, bind, get, ret.
  destruct (decide (self_current_phase_id h = current_phase_id st));
    [reflexivity|contradiction].
Qed.

(** Whatever the outcome of a firing, either nothing was mutated (and a
    normal return then means the phase was the one last seen), or the hook
    now holds the phase id of the plan state. *)
Lemma on_tool_end_cases (st : AgentState) (h : HookEnv) :
  (snd (on_tool_end Phase_str st h) = h
   /\ (fst (on_tool_end Phase_str st h) = inr tt ->
       self_current_phase_id h = current_phase_id st))
  \/ self_current_phase_id (snd (on_tool_end Phase_str st h))
     = current_phase_id st.
Proof.
  unfold on_tool_end, bind, get, ret, lift, modify.
  destruct (decide (self_current_phase_id h = current_phase_id st)) as [e|n].
  { left. split; [reflexivity|intros _; exact e]. }
  destruct (current_phase_id st) as [k|].
  2:{ left. split; [reflexivity|discriminate]. }
  destruct (1 <? k).
  - destruct (getitem (phases st) (k - 2)) as [e|p].
    { left. split; [reflexivity|discriminate]. }
    right.
    destruct (Str.contains _ _);
      destruct (getitem (phases st) (k - 1)); reflexivity.
  - right. destruct (getitem (phases st) (k - 1)); reflexivity.
Qed.

(** C4. Fired twice on the same plan state, the hook leaves after the second
    firing the instruction text of the first, whatever the first did; after
    a firing that returned, a further firing on any plan state with the same
    current phase id returns and changes nothing at all. *)
Theorem hook_idempotent (st : AgentState) (h : HookEnv) :
  let r1 := on_tool_end Phase_str st h in
  agent_instructions (snd (on_tool_end Phase_str st (snd r1)))
  = agent_instructions (snd r1)
  /\ forall st' : AgentState,
       current_phase_id st' = current_phase_id st ->
       fst r1 = inr tt ->
       on_tool_end Phase_str st' (snd r1) = (inr tt, snd r1).
Proof.
  cbv zeta.
  destruct (on_tool_end_cases st h) as [[Hsame Hret]|Hset].
  - split.
    + rewrite Hsame. now rewrite Hsame.
    + intros st' Hcur Hok. apply on_tool_end_same.
      rewrite Hsame, Hcur. now apply Hret.
  - split.
    + now rewrite (on_tool_end_same st _ Hset).
    + intros st' Hcur _. apply on_tool_end_same. now rewrite Hcur.
Qed.

(** C9. When the hook fires on a phase id [k] it has not seen: with
    [1 <= k <= len(phases)] it returns; with [k > len(phases)] it raises
    [IndexError].  Such a state is reached through [agent_update_plan],
    which stores any [k] without looking at the phase list. *)
Theorem hook_phase_index (Phase_repr : Phase -> string)
    (st : AgentState) (h : HookEnv) (k : Z) :
  current_phase_id st = Some k ->
  self_current_phase_id h <> Some k ->
  (1 <= k <= Z.of_nat (length (phases st)) ->
   exists h', on_tool_end Phase_str st h = (inr tt, h'))
  /\ (Z.of_nat (length (phases st)) < k ->
      exists msg h', on_tool_end Phase_str st h = (inl (IndexError msg), h'))
  /\ (forall st0 : AgentState,
        exists resp,
          agent_update_plan Phase_repr (Some k) None None st0
          = (inr resp, set_current_phase_id (Some k) st0)).
Proof.
  intros Hcur Hnew.
  split; [|split].
  - intros Hk.
    unfold on_tool_end, bind, get, ret, lift, modify. rewrite Hcur.
    destruct (decide (self_current_phase_id h = Some k)); [contradiction|].
    destruct (getitem_in_range (phases st) (k - 1)) as [p Hp]; [lia|].
    destruct (Z.ltb_spec 1 k) as [Hgt|Hle].
    + destruct (getitem_in_range (phases st) (k - 2)) as [q Hq]; [lia|].
      rewrite Hq.
      destruct (Str.contains _ _); simpl; rewrite Hp; eexists; reflexivity.
    + simpl. rewrite Hp. eexists; reflexivity.
  - intros Hk.
    unfold on_tool_end, bind, get, ret, lift, modify. rewrite Hcur.
    destruct (decide (self_current_phase_id h = Some k)); [contradiction|].
    rewrite (getitem_too_large (phases st) (k - 1)) by lia.
    destruct (Z.ltb_spec 1 k) as [Hgt|Hle].
    + destruct (getitem (phases st) (k - 2)) as [e|q] eqn:Hq.
      * unfold getitem in Hq.
        destruct (k - 2 <? 0);
          destruct (_ && _); try destruct (_ !! _); inversion Hq;
          do 2 eexists; reflexivity.
      * destruct (Str.contains _ _); simpl; do 2 eexists; reflexivity.
    + simpl. do 2 eexists; reflexivity.
  - intros st0. eexists. reflexivity.
Qed.

End HookProperties.

Lemma hook_phase_index_witness :
  (exists h', on_tool_end Phase_str_plain (demo_plan 2)
                (StepPromptHook_init "Be helpful.") = (inr tt, h'))
  /\ (exists msg h', on_tool_end Phase_str_plain (demo_plan 4)
                (StepPromptHook_init "Be helpful.")
              = (inl (IndexError msg), h')).
Proof.
  split.
  - apply (hook_phase_index Phase_str_plain Phase_repr_plain (demo_plan 2)
             (StepPromptHook_init "Be helpful.") 2);
      [reflexivity | discriminate | simpl; lia].
  - apply (hook_phase_index Phase_str_plain Phase_repr_plain (demo_plan 4)
             (StepPromptHook_init "Be helpful.") 4);
      [reflexivity | discriminate | simpl; lia].
Defined.

(** After the raise at the second indexing the hook has already recorded the
    phase id, so the next firing on the same state is a no-op. *)
Example hook_raise_then_noop :
  let r1 := on_tool_end Phase_str_plain (demo_plan 4)
              (StepPromptHook_init "Be helpful.") in
  fst r1 = inl (IndexError "list index out of range")
  /\ self_current_phase_id (snd r1) = Some 4
  /\ on_tool_end Phase_str_plain (demo_plan 4) (snd r1) = (inr tt, snd r1).
Proof. vm_compute. auto. Qed.

(** ** Facts about the string operations *)

Module StrFacts.

Lemma app_cons (a : ascii) (s t : string) :
  String a s +:+ t = String a (s +:+ t).
Proof. reflexivity. Qed.

Lemma app_nil_l (s : string) : "" +:+ s = s.
Proof. reflexivity. Qed.

Lemma app_nil_r (s : string) : s +:+ "" = s.
Proof. induction s as [|a s IH]; [reflexivity|]. now rewrite app_cons, IH. Qed.

Lemma app_assoc (s t u : string) : (s +:+ t) +:+ u = s +:+ t +:+ u.
Proof.
  induction s as [|a s IH]; [reflexivity|]. now rewrite !app_cons, IH.
Qed.

Lemma length_app (s t : string) :
  String.length (s +:+ t) = (String.length s + String.length t)%nat.
Proof.
  induction s as [|a s IH]; [reflexivity|].
  rewrite app_cons. simpl. now rewrite IH.
Qed.

Lemma drop_0 (s : string) : Str.drop 0 s = s.
Proof. now destruct s. Qed.

Lemma drop_app (p r : string) : Str.drop (String.length p) (p +:+ r) = r.
Proof.
  induction p as [|a p IH]; [apply drop_0|]. rewrite app_cons. exact IH.
Qed.

Lemma startswith_spec (s p : string) :
  Str.startswith s p = true <-> exists r, s = p +:+ r.
Proof.
  revert s. induction p as [|b p IH]; intros s; simpl.
  - split; [intros _; now exists s|intros _; reflexivity].
  - destruct s as [|a s].
    + split; [discriminate|]. intros [r Hr]. rewrite app_cons in Hr.
      discriminate.
    + destruct (Ascii.eqb_spec a b) as [->|Hne].
      * rewrite IH. split; intros [r Hr]; exists r.
        -- now rewrite app_cons, Hr.
        -- rewrite app_cons in Hr. now inversion Hr.
      * split; [discriminate|]. intros [r Hr]. rewrite app_cons in Hr.
        inversion Hr. contradiction.
Qed.

Lemma startswith_app (p r : string) : Str.startswith (p +:+ r) p = true.
Proof. apply startswith_spec. now exists r. Qed.

Lemma contains_spec (p s : string) :
  Str.contains p s = true <-> exists l r, s = l +:+ p +:+ r.
Proof.
  induction s as [|a s IH]; simpl.
  - rewrite orb_false_r, startswith_spec. split.
    + intros [r Hr]. now exists "", r.
    + intros (l & r & Hlr). destruct l; [now exists r|].
      rewrite app_cons in Hlr. discriminate.
  - rewrite orb_true_iff, startswith_spec, IH. split.
    + intros [[r Hr]|(l & r & Hlr)].
      * now exists "", r.
      * exists (String a l), r. now rewrite app_cons, Hlr.
    + intros (l & r & Hlr). destruct l as [|b l].
      * left. now exists r.
      * right. rewrite app_cons in Hlr. inversion Hlr. now exists l, r.
Qed.

(** A scan that still has [k] characters to skip continues [k] characters
    further on. *)
Lemma count_go_skip (sub : string) (k : nat) (s : string) :
  Str.count_go sub k s = Str.count_go sub 0 (Str.drop k s).
Proof.
  revert k. induction s as [|a s IH]; intros [|k]; try reflexivity.
  simpl Str.drop. simpl Str.count_go at 1. apply IH.
Qed.

Lemma replace_go_skip (old new : string) (k : nat) (s : string) :
  Str.replace_go old new k s = Str.replace_go old new 0 (Str.drop k s).
Proof.
  revert k. induction s as [|a s IH]; intros [|k]; try reflexivity.
  simpl Str.drop. simpl Str.replace_go at 1. apply IH.
Qed.

(** The two scans at a match and away from one. *)
Lemma count_go_match (b : ascii) (sub r : string) :
  Str.count_go (String b sub) 0 (String b sub +:+ r)
  = S (Str.count_go (String b sub) 0 r).
Proof.
  rewrite app_cons at 1. cbn [Str.count_go].
  rewrite <- app_cons, startswith_app, count_go_skip.
  replace (String.length (String b sub) - 1)%nat with (String.length sub)
    by (simpl; lia).
  now rewrite drop_app.
Qed.

Lemma replace_go_match (b : ascii) (old new r : string) :
  Str.replace_go (String b old) new 0 (String b old +:+ r)
  = new +:+ Str.replace_go (String b old) new 0 r.
Proof.
  rewrite app_cons at 1. cbn [Str.replace_go].
  rewrite <- app_cons, startswith_app, replace_go_skip.
  replace (String.length (String b old) - 1)%nat with (String.length old)
    by (simpl; lia).
  now rewrite drop_app.
Qed.

Lemma count_go_miss (sub : string) (a : ascii) (s : string) :
  Str.startswith (String a s) sub = false ->
  Str.count_go sub 0 (String a s) = Str.count_go sub 0 s.
Proof. intros H. cbn [Str.count_go]. now rewrite H. Qed.

Lemma replace_go_miss (old new : string) (a : ascii) (s : string) :
  Str.startswith (String a s) old = false ->
  Str.replace_go old new 0 (String a s)
  = String a (Str.replace_go old new 0 s).
Proof. intros H. cbn [Str.replace_go]. now rewrite H. Qed.

(** Nothing counted, nothing replaced. *)
Lemma replace_go_count_0 (old new : string) (k : nat) (s : string) :
  Str.count_go old k s = 0%nat ->
  Str.replace_go old new k s = Str.drop k s.
Proof.
  revert k. induction s as [|a s IH]; intros k Hc.
  - now destruct k.
  - destruct k as [|k].
    + cbn [Str.count_go] in Hc. cbn [Str.replace_go].
      destruct (Str.startswith (String a s) old); [discriminate|].
      rewrite (IH 0%nat Hc). now rewrite !drop_0.
    + cbn [Str.count_go] in Hc. cbn [Str.replace_go Str.drop]. now apply IH.
Qed.

(** One match counted: the text splits around the leftmost occurrence, and
    the replacement puts [new] there. *)
Lemma replace_go_count_1 (b : ascii) (old' new : string) (k : nat) (s : string) :
  let old := String b old' in
  Str.count_go old k s = 1%nat ->
  exists l r,
    Str.drop k s = l +:+ old +:+ r
    /\ Str.replace_go old new k s = l +:+ new +:+ r
    /\ forall l' r', Str.drop k s = l' +:+ old +:+ r' ->
         (String.length l <= String.length l')%nat.
Proof.
  intros old. revert k. induction s as [|a s IH]; intros k Hc.
  - now destruct k.
  - destruct k as [|k].
    + cbn [Str.count_go] in Hc. cbn [Str.replace_go]. rewrite drop_0.
      destruct (Str.startswith (String a s) old) eqn:Hsw.
      * injection Hc as Hc.
        replace (String.length old - 1)%nat with (String.length old')
          by (unfold old; simpl; lia).
        rewrite Nat.sub_0_r in Hc.
        rewrite (replace_go_count_0 old new _ s Hc).
        apply startswith_spec in Hsw as [r Hr].
        exists "", r. rewrite !app_nil_l. split; [exact Hr|]. split.
        -- f_equal. unfold old in Hr. rewrite app_cons in Hr.
           injection Hr as _ Hs. subst s. apply drop_app.
        -- intros l' r' _. simpl. lia.
      * destruct (IH 0%nat Hc) as (l & r & Hs & Hrep & Hleft).
        rewrite drop_0 in Hs, Hleft.
        exists (String a l), r. rewrite !app_cons. split; [now rewrite Hs|].
        split; [now rewrite Hrep|].
        intros l' r' Hl'. destruct l' as [|a' l'].
        -- rewrite app_nil_l in Hl'.
           assert (Str.startswith (String a s) old = true) as Habs
             by (apply startswith_spec; now exists r').
           rewrite Habs in Hsw. discriminate.
        -- rewrite app_cons in Hl'. injection Hl' as _ Hl'.
           specialize (Hleft l' r' Hl'). simpl. lia.
    + cbn [Str.count_go] in Hc. cbn [Str.replace_go Str.drop]. now apply IH.
Qed.

(** Reading in text mode does not change the lines: [splitlines] already
    counts CR LF and CR as one boundary each. *)
Lemma splitlines_go_universal_newlines (n : nat) (cur s : string) :
  (String.length s <= n)%nat ->
  Str.splitlines_go cur (Str.universal_newlines s) = Str.splitlines_go cur s.
Proof.
  revert cur s. induction n as [|n IH]; intros cur s Hlen.
  - destruct s; [reflexivity|simpl in Hlen; lia].
  - destruct s as [|a s]; [reflexivity|]. simpl in Hlen.
    cbn [Str.universal_newlines Str.splitlines_go].
    destruct (Ascii.eqb a "013") eqn:Ha.
    + destruct s as [|b s'].
      * reflexivity.
      * assert (Hs : forall c, Str.splitlines_go c
                                 (Str.universal_newlines (String b s'))
                               = Str.splitlines_go c (String b s'))
          by (intros c; apply IH; simpl in *; lia).
        assert (Hs' : forall c, Str.splitlines_go c
                                  (Str.universal_newlines s')
                                = Str.splitlines_go c s')
          by (intros c; apply IH; simpl in Hlen; lia).
        destruct b as [[] [] [] [] [] [] [] []]; cbv iota;
          change (Str.splitlines_go cur (String "010" ?t))
            with (String.rev cur :: Str.splitlines_go "" t);
          f_equal; first [apply Hs'|apply Hs].
    + cbn [Str.splitlines_go]. rewrite Ha.
      destruct (Str.is_linebreak a); [f_equal|]; apply IH; lia.
Qed.

Lemma splitlines_universal_newlines (s : string) :
  Str.splitlines (Str.universal_newlines s) = Str.splitlines s.
Proof.
  apply (splitlines_go_universal_newlines (String.length s)). lia.
Qed.

(** A text without carriage return is read as it is stored. *)
Lemma universal_newlines_id (s : string) :
  Str.contains (String "013" "") s = false -> Str.universal_newlines s = s.
Proof.
  induction s as [|a s IH]; intros Hcr; [reflexivity|].
  cbn [Str.contains Str.startswith] in Hcr.
  apply orb_false_elim in Hcr as [Ha Hcr].
  cbn [Str.universal_newlines]. destruct (Ascii.eqb a "013"); [discriminate|].
  now rewrite IH.
Qed.

End StrFacts.

(** ** Messaging *)

Section MessagingProperties.

Variable input : string -> string.

Lemma message_ask_user_with_options (text : string)
    (attachments : option (list string)) (o : string) (opts : list string) :
  message_ask_user input text attachments (Some (o :: opts))
  = inr (input (("[Ask] " +:+ text +:+ NL) +:+ Str.join " / " (o :: opts)
                +:+ NL +:+ "> ")).
Proof. reflexivity. Qed.

Lemma message_ask_user_returns (text : string)
    (attachments options : option (list string)) :
  exists reply, message_ask_user input text attachments options = inr reply.
Proof.
  unfold message_ask_user. destruct (truthy options); simpl; eauto.
Qed.

(** C7 (what the code does). With [options=[]] the call does not raise: the
    list is falsy, the guard that raises sits under [if options:], and the
    prompt is the one used when no options are given. *)
Theorem message_ask_user_empty_options (text : string)
    (attachments : option (list string)) :
  message_ask_user input text attachments (Some [])
  = inr (input (("[Ask] " +:+ text +:+ NL) +:+ "> "))
  /\ message_ask_user input text attachments (Some [])
     = message_ask_user input text attachments None.
Proof. split; reflexivity. Qed.

End MessagingProperties.

(** ** File tools *)

Lemma slice_in_range {A} (l : list A) (a b : Z) :
  0 <= a -> a < b -> b <= Z.of_nat (length l) ->
  slice l a b = take (Z.to_nat (b - a)) (drop (Z.to_nat a) l).
Proof.
  intros Ha Hab Hb. unfold slice.
  destruct (Z.ltb_spec a 0); [lia|]. destruct (Z.ltb_spec b 0); [lia|].
  now rewrite !Z.min_l by lia.
Qed.

Lemma range_test (start end_ n : Z) :
  (start <? 0) || (n <? end_) || (end_ <=? start) = true
  <-> start < 0 \/ end_ > n \/ start >= end_.
Proof.
  destruct (Z.ltb_spec start 0), (Z.ltb_spec n end_),
    (Z.leb_spec end_ start); simpl; split; intros; try lia; try discriminate;
    reflexivity.
Qed.

Section FileProperties.

Variable _resolve : string -> string.

(** C5. On an existing file, with a start or an end line given, [file_read]
    raises (the [ValueError] the design calls InvalidRange) exactly when
    [start < 0], [end > line_count] or [start >= end], after [start]
    defaults to 0 and [end] to the line count; otherwise it returns the lines
    [start], ..., [end - 1] joined by newlines.  On five lines, 3 and 2 are
    refused. *)
Theorem file_read_range (fs : gmap string node) (file content : string)
    (start_line end_line : option Z) (sudo : bool) :
  fs !! _resolve file = Some (File content) ->
  start_line <> None \/ end_line <> None ->
  let lines := Str.splitlines content in
  let n := Z.of_nat (length lines) in
  let start := default 0 start_line in
  let end_ := default n end_line in
  let out := file_read _resolve file start_line end_line sudo fs in
  ((exists msg, out = (inl (ValueError msg), fs))
   <-> (start < 0 \/ end_ > n \/ start >= end_))
  /\ (~ (start < 0 \/ end_ > n \/ start >= end_) ->
      out = (inr (Str.join NL
                    (take (Z.to_nat (end_ - start))
                          (drop (Z.to_nat start) lines))), fs))
  /\ (length lines = 5%nat -> start_line = Some 3 -> end_line = Some 2 ->
      exists msg, out = (inl (ValueError msg), fs)).
Proof.
  intros Hfile Hgiven lines n start end_ out.
  assert (Hout : out =
    if (start <? 0) || (n <? end_) || (end_ <=? start)
    then (inl (ValueError
            ("Invalid line range: start_line=" +:+ str_opt_int start_line
             +:+ ", end_line=" +:+ str_opt_int end_line +:+ ", file has "
             +:+ pretty n +:+ " lines")), fs)
    else (inr (Str.join NL (slice lines start end_)), fs)).
  { subst out start end_ n lines.
    unfold file_read, bind, get, read_text, raise, ret.
    destruct (decide (fs !! _resolve file = None)) as [Hn|_];
      [rewrite Hfile in Hn; discriminate|].
    rewrite Hfile.
    destruct start_line as [a|], end_line as [b|]; simpl;
      try (destruct Hgiven; congruence);
      rewrite !StrFacts.splitlines_universal_newlines;
      match goal with |- context [if ?c then _ else _] => destruct c end;
      reflexivity. }
  pose proof (range_test start end_ n) as Htest.
  destruct ((start <? 0) || (n <? end_) || (end_ <=? start)).
  - assert (Hbad : start < 0 \/ end_ > n \/ start >= end_)
      by now apply Htest.
    split; [|split].
    + split; [intros _; exact Hbad|intros _; eexists; exact Hout].
    + intros Hgood. contradiction.
    + intros _ _ _. eexists; exact Hout.
  - assert (Hgood : ~ (start < 0 \/ end_ > n \/ start >= end_)).
    { intros Hbad. apply Htest in Hbad. discriminate. }
    split; [|split].
    + split; [|intros Hbad; contradiction].
      intros [msg Hmsg]. rewrite Hout in Hmsg. discriminate.
    + intros _. rewrite Hout. do 2 f_equal. f_equal.
      apply slice_in_range; unfold n in *; lia.
    + intros Hlen Hs He. exfalso. apply Hgood.
      unfold start, end_. rewrite Hs, He. simpl. lia.
Qed.

(** C3 (amended). On an existing file, let [text] be the file as Python
    reads it (text mode: CR LF and CR read as LF).  [file_replace_text]
    raises (the [ValueError] the design calls AmbiguousReplacement) exactly
    when [old_text] is counted more than once in [text], and then the file
    system is untouched.  Counted once or not at all, the call returns and
    the file holds [text.replace(old_text, new_text)]: with one match that is
    [text] with its leftmost occurrence of [old_text] replaced by
    [new_text], with none it is [text] itself, which is the stored content
    when that holds no carriage return. *)
Theorem file_replace_text_guard (fs : gmap string node)
    (path content old_text new_text : string) :
  fs !! _resolve path = Some (File content) ->
  let text := Str.universal_newlines content in
  let out := file_replace_text _resolve path old_text new_text fs in
  ((exists msg, out = (inl (ValueError msg), fs))
   <-> (1 < Str.count text old_text)%nat)
  /\ ((Str.count text old_text <= 1)%nat ->
      exists resp,
        out = (inr resp,
               <[_resolve path :=
                   File (Str.replace text old_text new_text)]> fs))
  /\ (Str.count text old_text = 1%nat ->
      exists l r,
        text = l +:+ old_text +:+ r
        /\ Str.replace text old_text new_text = l +:+ new_text +:+ r
        /\ forall l' r', text = l' +:+ old_text +:+ r' ->
             (String.length l <= String.length l')%nat)
  /\ (Str.count text old_text = 0%nat ->
      Str.replace text old_text new_text = text)
  /\ (Str.contains (String "013" "") content = false -> text = content).
Proof.
  intros Hfile text out.
  assert (Hout : out =
    if (1 <? Str.count text old_text)%nat
    then (inl (ValueError
            ("Error: '" +:+ old_text +:+
             "' appears multiple times in the file. Please provide a more specific old_text to avoid ambiguity.")),
          fs)
    else (inr ("File edited: " +:+ path
               +:+ ", Latest content with line numbers: " +:+ new_text),
          <[_resolve path :=
              File (Str.replace text old_text new_text)]> fs)).
  { unfold out, file_replace_text, bind, read_text, write_text, raise, ret.
    rewrite Hfile. fold text. destruct (1 <? Str.count text old_text)%nat;
      [reflexivity|]. now rewrite Hfile. }
  split; [|split; [|split; [|split]]].
  - destruct (Nat.ltb_spec 1 (Str.count text old_text)) as [Hgt|Hle].
    + split; [intros _; exact Hgt|intros _; eexists; exact Hout].
    + split; [|intros Hgt; exfalso; lia].
      intros [msg Hmsg]. rewrite Hout in Hmsg. discriminate.
  - intros Hle.
    destruct (Nat.ltb_spec 1 (Str.count text old_text)) as [Hgt|_];
      [lia|]. eexists; exact Hout.
  - intros Hone. destruct old_text as [|b old'].
    + simpl in Hone. injection Hone as Hlen.
      destruct text; [|discriminate].
      exists "", "". split; [reflexivity|]. split.
      * rewrite StrFacts.app_nil_l, StrFacts.app_nil_r. reflexivity.
      * intros l' r' _. simpl. lia.
    + unfold Str.count in Hone. unfold Str.replace.
      destruct (StrFacts.replace_go_count_1 b old' new_text 0 text Hone)
        as (l & r & Hc & Hrep & Hleft).
      rewrite StrFacts.drop_0 in Hc, Hleft. now exists l, r.
  - intros Hzero. destruct old_text as [|b old']; [discriminate|].
    unfold Str.count in Hzero. unfold Str.replace.
    rewrite (StrFacts.replace_go_count_0 _ _ _ _ Hzero).
    apply StrFacts.drop_0.
  - apply StrFacts.universal_newlines_id.
Qed.

End FileProperties.

Lemma file_read_range_witness :
  (exists msg,
     file_read resolve_id "/five.txt" (Some 3) (Some 2) false demo_fs
     = (inl (ValueError msg), demo_fs))
  /\ file_read resolve_id "/five.txt" (Some 1) (Some 3) false demo_fs
     = (inr ("l1" +:+ NL +:+ "l2"), demo_fs).
Proof.
  split.
  - destruct (file_read_range resolve_id demo_fs "/five.txt" text_five
                (Some 3) (Some 2) false eq_refl) as (_ & _ & H5).
    + left. discriminate.
    + apply H5; reflexivity.
  - destruct (file_read_range resolve_id demo_fs "/five.txt" text_five
                (Some 1) (Some 3) false eq_refl) as (_ & Hok & _).
    + left. discriminate.
    + rewrite Hok; [reflexivity|]. vm_compute. intros [H|[H|H]];
        try discriminate H; now apply H.
Defined.

(** The examples of the design document: ["a\na\n"] is ambiguous for ["a"];
    in ["a\nb\n"] the ["a"] becomes ["x"]. *)
Example replace_ambiguous :
  exists msg,
    file_replace_text resolve_id "/aa.txt" "a" "x" demo_fs
    = (inl (ValueError msg), demo_fs).
Proof. eexists. reflexivity. Qed.

Example replace_unique :
  snd (file_replace_text resolve_id "/ab.txt" "a" "x" demo_fs) !! "/ab.txt"
  = Some (File ("x" +:+ NL +:+ "b" +:+ NL)).
Proof. reflexivity. Qed.

Lemma file_replace_text_guard_witness :
  exists resp,
    file_replace_text resolve_id "/ab.txt" "a" "x" demo_fs
    = (inr resp,
       <["/ab.txt" := File (Str.replace text_a_b "a" "x")]> demo_fs).
Proof.
  destruct (file_replace_text_guard resolve_id demo_fs "/ab.txt" text_a_b
              "a" "x" eq_refl) as (_ & Hok & _).
  apply Hok. vm_compute. lia.
Defined.

(** C3 (as stated, refuted). A search string that does not occur at all is
    accepted: the call returns and writes the content back unchanged. *)
Lemma file_replace_text_absent_returns :
  Str.count text_a_b "z" = 0%nat
  /\ exists resp,
       file_replace_text resolve_id "/ab.txt" "z" "x" demo_fs
       = (inr resp, <["/ab.txt" := File text_a_b]> demo_fs).
Proof. split; [reflexivity|]. eexists. reflexivity. Qed.

(** A file with CR LF line endings is read with LF: a search string that is
    not there still has the file rewritten, with LF endings; the stored
    CR LF itself is never found; and a plain read shows LF. *)
Example replace_absent_in_crlf_file :
  file_replace_text resolve_id "/dos.txt" "z" "x" crlf_fs
  = (inr "File edited: /dos.txt, Latest content with line numbers: x",
     {[ "/dos.txt" := File text_a_b ]}).
Proof. reflexivity. Qed.

Example replace_crlf_in_crlf_file :
  snd (file_replace_text resolve_id "/dos.txt" (CR +:+ NL) "x" crlf_fs)
  = {[ "/dos.txt" := File text_a_b ]}.
Proof. reflexivity. Qed.

Example read_crlf_file :
  file_read resolve_id "/dos.txt" None None false crlf_fs
  = (inr text_a_b, crlf_fs).
Proof. reflexivity. Qed.

(** ** Web search *)

Lemma date_restrict_map_lookup (date_range : string) :
  date_restrict_map !! date_range
  = if decide (date_range = "past_hour") then Some "h1"
    else if decide (date_range = "past_day") then Some "d1"
    else if decide (date_range = "past_week") then Some "w1"
    else if decide (date_range = "past_month") then Some "m1"
    else if decide (date_range = "past_year") then Some "y1"
    else None.
Proof.
  repeat (case_decide; [subst; reflexivity|]).
  unfold date_restrict_map.
  rewrite !lookup_insert_ne by congruence.
  now apply lookup_singleton_ne.
Qed.

Section SearchProperties.

Variable Json : Type.
Variable getenv : string -> string -> string.
Variable requests_get : string -> gmap string pyval -> Response Json.

(** C10. The request carries [dateRestrict] exactly for the five recency
    names, with the value mapped to each; for ["all"] and for any other
    string it carries none.  Whatever [date_range] is, the call raises only
    when the response status is not 200. *)
Theorem search_date_restrict (query date_range : string) (num : Z) :
  let req := info_search_web_request getenv query date_range num in
  let params := snd req in
  (date_range = "past_hour" -> params !! "dateRestrict" = Some (PStr "h1"))
  /\ (date_range = "past_day" -> params !! "dateRestrict" = Some (PStr "d1"))
  /\ (date_range = "past_week" -> params !! "dateRestrict" = Some (PStr "w1"))
  /\ (date_range = "past_month" -> params !! "dateRestrict" = Some (PStr "m1"))
  /\ (date_range = "past_year" -> params !! "dateRestrict" = Some (PStr "y1"))
  /\ ((exists v, params !! "dateRestrict" = Some v)
      <-> In date_range
            ["past_hour"; "past_day"; "past_week"; "past_month"; "past_year"])
  /\ (date_range = "all" -> params !! "dateRestrict" = None)
  /\ params !! "q" = Some (PStr query)
  /\ params !! "num" = Some (PInt num)
  /\ ((exists e, info_search_web getenv requests_get query date_range num
                 = inl e)
      <-> status_code (requests_get (fst req) params) <> 200)
  /\ (status_code (requests_get (fst req) params) = 200 ->
      info_search_web getenv requests_get query date_range num
      = inr (json (requests_get (fst req) params))).
Proof.
  cbv zeta.
  assert (Hdr : snd (info_search_web_request getenv query date_range num)
                !! "dateRestrict"
                = PStr <$> (if decide (date_range = "all") then None
                            else date_restrict_map !! date_range)).
  { unfold info_search_web_request. simpl.
    destruct (decide (date_range <> "all")) as [Hne|Heq].
    - destruct (decide (date_range = "all")); [contradiction|].
      destruct (date_restrict_map !! date_range) as [v|]; simpl.
      + now rewrite lookup_insert_eq.
      + reflexivity.
    - destruct (decide (date_range = "all")) as [->|]; [|tauto].
      reflexivity. }
  assert (Hother : forall k, k <> "dateRestrict" ->
            snd (info_search_web_request getenv query date_range num) !! k
            = ({[ "q" := PStr query; "num" := PInt num;
                  "key" := PStr (getenv "GOOGLE_API_KEY" "Your Google API Key");
                  "cx" := PStr (getenv "GOOGLE_SEARCH_CX" "") ]}
               : gmap string pyval) !! k).
  { intros k Hk. unfold info_search_web_request. simpl.
    destruct (decide (date_range <> "all")); [|reflexivity].
    destruct (date_restrict_map !! date_range); [|reflexivity].
    now rewrite lookup_insert_ne. }
  rewrite Hdr, date_restrict_map_lookup.
  repeat split.
  - intros ->. reflexivity.
  - intros ->. reflexivity.
  - intros ->. reflexivity.
  - intros ->. reflexivity.
  - intros ->. reflexivity.
  - intros [v Hv]. simpl.
    repeat (case_decide; [subst; first [discriminate Hv|tauto]|]).
    discriminate Hv.
  - simpl. intros [<-|[<-|[<-|[<-|[<-|[]]]]]]; eexists; reflexivity.
  - intros ->. reflexivity.
  - rewrite Hother by discriminate. reflexivity.
  - rewrite Hother by discriminate. reflexivity.
  - intros [e He] H200. unfold info_search_web in He.
    destruct (info_search_web_request getenv query date_range num)
      as [url params] eqn:Hreq.
    simpl in H200. destruct (decide (_ <> 200)); [contradiction|discriminate].
  - intros Hne. unfold info_search_web.
    destruct (info_search_web_request getenv query date_range num)
      as [url params] eqn:Hreq.
    simpl in Hne. destruct (decide (_ <> 200)); [eauto|contradiction].
  - intros H200. unfold info_search_web.
    destruct (info_search_web_request getenv query date_range num)
      as [url params] eqn:Hreq.
    simpl in *. destruct (decide (_ <> 200)); [contradiction|reflexivity].
Qed.

End SearchProperties.

(** ** The single-clause property of the hook *)

(** *** Scanning a text for a pattern that starts with the phase marker *)

Module Scan.
Import StrFacts.

Lemma startswith_trans (s c m : string) :
  Str.startswith s c = true -> Str.startswith c m = true ->
  Str.startswith s m = true.
Proof.
  rewrite !startswith_spec. intros [r ->] [r' ->].
  exists (r' +:+ r). apply app_assoc.
Qed.

(** A pattern without line feed that matches at the start of [b] followed by
    a line feed matches inside [b]. *)
Lemma startswith_before_nl (m b Y : string) :
  Str.contains NL m = false ->
  Str.startswith (b +:+ String "010" Y) m = true ->
  Str.startswith b m = true.
Proof.
  revert b. induction m as [|x m IH]; intros b Hnl Hsw; [reflexivity|].
  simpl in Hnl. apply orb_false_elim in Hnl as [Hx Hm].
  destruct b as [|a b].
  - rewrite app_nil_l in Hsw. cbn [Str.startswith] in Hsw, Hx. revert Hsw.
    destruct (Ascii.eqb_spec "010"%char x) as [<-|Hne]; [|discriminate].
    vm_compute in Hx. discriminate.
  - rewrite app_cons in Hsw. simpl in Hsw |- *.
    destruct (Ascii.eqb a x); [|discriminate]. now apply IH.
Qed.

Section Pattern.

(** [c] is a pattern that starts with the phase marker, as every phase
    clause does; [prompt] is a text in which the marker does not occur. *)
Variable c : string.
Hypothesis c_marker : Str.startswith c phase_marker = true.

Lemma miss_at_nl (Y : string) : Str.startswith (String "010" Y) c = false.
Proof.
  apply startswith_spec in c_marker as [r ->]. reflexivity.
Qed.

Lemma miss_in_prompt (a : ascii) (b Y : string) :
  Str.contains phase_marker (String a b) = false ->
  Str.startswith (String a b +:+ String "010" Y) c = false.
Proof.
  intros Hfree.
  destruct (Str.startswith (String a b +:+ String "010" Y) c) eqn:Hsw;
    [exfalso|reflexivity].
  pose proof (startswith_trans _ _ _ Hsw c_marker) as Hm.
  apply startswith_before_nl in Hm; [|reflexivity].
  cbn [Str.contains] in Hfree. apply orb_false_elim in Hfree as [Hfree _].
  rewrite Hm in Hfree. discriminate.
Qed.

Lemma contains_tail (p : string) (a : ascii) (b : string) :
  Str.contains p (String a b) = false -> Str.contains p b = false.
Proof.
  cbn [Str.contains]. intros H. now apply orb_false_elim in H as [_ H].
Qed.

Lemma replace_go_over_prompt (new prompt Y : string) :
  Str.contains phase_marker prompt = false ->
  Str.replace_go c new 0 (prompt +:+ String "010" Y)
  = prompt +:+ Str.replace_go c new 0 (String "010" Y).
Proof.
  induction prompt as [|a b IH]; intros Hfree; [reflexivity|].
  rewrite app_cons at 1. rewrite replace_go_miss.
  - rewrite IH by (eapply contains_tail; eauto). reflexivity.
  - rewrite <- app_cons. now apply miss_in_prompt.
Qed.

Lemma count_go_over_prompt (prompt Y : string) :
  Str.contains phase_marker prompt = false ->
  Str.count_go c 0 (prompt +:+ String "010" Y)
  = Str.count_go c 0 (String "010" Y).
Proof.
  induction prompt as [|a b IH]; intros Hfree; [reflexivity|].
  rewrite app_cons at 1. rewrite count_go_miss.
  - apply IH. eapply contains_tail; eauto.
  - rewrite <- app_cons. now apply miss_in_prompt.
Qed.

Lemma contains_over_prompt (prompt Y : string) :
  Str.contains phase_marker prompt = false ->
  Str.contains c (prompt +:+ String "010" Y)
  = Str.contains c (String "010" Y).
Proof.
  induction prompt as [|a b IH]; intros Hfree; [reflexivity|].
  rewrite app_cons at 1. cbn [Str.contains].
  rewrite <- app_cons, miss_in_prompt by assumption.
  apply IH. eapply contains_tail; eauto.
Qed.

Lemma blank_lines_cons (n : nat) :
  blank_lines (S n) = String "010" (String "010" (blank_lines n)).
Proof.
  induction n as [|n IH]; [reflexivity|].
  change (blank_lines (S (S n))) with (blank_lines (S n) +:+ NL +:+ NL).
  rewrite IH at 1. rewrite !app_cons. reflexivity.
Qed.

Lemma replace_go_over_blank (new : string) (n : nat) (t : string) :
  Str.replace_go c new 0 (blank_lines n +:+ t)
  = blank_lines n +:+ Str.replace_go c new 0 t.
Proof.
  induction n as [|n IH]; [reflexivity|].
  rewrite blank_lines_cons, !app_cons.
  rewrite !replace_go_miss by apply miss_at_nl. now rewrite IH.
Qed.

Lemma count_go_over_blank (n : nat) (t : string) :
  Str.count_go c 0 (blank_lines n +:+ t) = Str.count_go c 0 t.
Proof.
  induction n as [|n IH]; [reflexivity|].
  rewrite blank_lines_cons, !app_cons.
  now rewrite !count_go_miss by apply miss_at_nl.
Qed.

Lemma contains_over_blank (n : nat) (t : string) :
  Str.contains c (blank_lines n +:+ t) = Str.contains c t.
Proof.
  induction n as [|n IH]; [reflexivity|].
  rewrite blank_lines_cons, !app_cons. cbn [Str.contains].
  now rewrite !miss_at_nl.
Qed.

(** The head of the instruction text, the prompt and [n >= 1] separators, is
    passed over without a match. *)
Lemma replace_go_over_head (new prompt : string) (n : nat) (t : string) :
  Str.contains phase_marker prompt = false ->
  Str.replace_go c new 0 (prompt +:+ blank_lines (S n) +:+ t)
  = prompt +:+ blank_lines (S n) +:+ Str.replace_go c new 0 t.
Proof.
  intros Hfree.
  assert (Hnl : blank_lines (S n) +:+ t
                = String "010" (String "010" (blank_lines n +:+ t)))
    by now rewrite blank_lines_cons, !app_cons.
  rewrite Hnl, replace_go_over_prompt by assumption.
  rewrite <- Hnl, replace_go_over_blank. reflexivity.
Qed.

Lemma count_go_over_head (prompt : string) (n : nat) (t : string) :
  Str.contains phase_marker prompt = false ->
  Str.count_go c 0 (prompt +:+ blank_lines (S n) +:+ t) = Str.count_go c 0 t.
Proof.
  intros Hfree.
  assert (Hnl : blank_lines (S n) +:+ t
                = String "010" (String "010" (blank_lines n +:+ t)))
    by now rewrite blank_lines_cons, !app_cons.
  rewrite Hnl, count_go_over_prompt by assumption.
  rewrite <- Hnl. apply count_go_over_blank.
Qed.

Lemma contains_over_head (prompt : string) (n : nat) (t : string) :
  Str.contains phase_marker prompt = false ->
  Str.contains c (prompt +:+ blank_lines (S n) +:+ t) = Str.contains c t.
Proof.
  intros Hfree.
  assert (Hnl : blank_lines (S n) +:+ t
                = String "010" (String "010" (blank_lines n +:+ t)))
    by now rewrite blank_lines_cons, !app_cons.
  rewrite Hnl, contains_over_prompt by assumption.
  rewrite <- Hnl. apply contains_over_blank.
Qed.

End Pattern.

End Scan.

(** *** The hook along a sequential run *)

Lemma getitem_nat {A} (l : list A) (i : nat) (x : A) :
  l !! i = Some x -> getitem l (Z.of_nat i) = inr x.
Proof.
  intros Hx. unfold getitem.
  pose proof (lookup_lt_Some _ _ _ Hx) as Hlt.
  destruct (Z.ltb_spec (Z.of_nat i) 0); [lia|].
  destruct (Z.leb_spec 0 (Z.of_nat i)); [|lia].
  destruct (Z.ltb_spec (Z.of_nat i) (Z.of_nat (length l))); [|lia].
  simpl. now rewrite Nat2Z.id, Hx.
Qed.

Lemma run_tools_app (Phase_str Phase_repr : Phase -> string)
    (l1 l2 : list ToolCall) (w : AgentState * HookEnv) :
  run_tools Phase_str Phase_repr (l1 ++ l2)%list w
  = match run_tools Phase_str Phase_repr l1 w with
    | (inr _, w') => run_tools Phase_str Phase_repr l2 w'
    | (inl e, w') => (inl e, w')
    end.
Proof.
  revert w. induction l1 as [|c l1 IH]; intros w; [reflexivity|].
  simpl. unfold bind.
  destruct (tool_step Phase_str Phase_repr c w) as [[e|[]] w'];
    [reflexivity|apply IH].
Qed.

Section SingleClause.

Variable Phase_str : Phase -> string.
Variable Phase_repr : Phase -> string.
Variable g : string.
Variable ps : list Phase.
Variable prompt : string.
Hypothesis prompt_free : Str.contains phase_marker prompt = false.

Local Abbreviation clause k p :=
  (phase_clause Phase_str (Z.of_nat k) (Some g) p).

Lemma phase_clause_marker (k : Z) (go : option string) (p : Phase) :
  Str.startswith (phase_clause Phase_str k go p) phase_marker = true.
Proof. reflexivity. Qed.

Lemma phase_clause_cons (k : Z) (go : option string) (p : Phase) :
  exists q, phase_clause Phase_str k go p = String "Y" q.
Proof. eexists. reflexivity. Qed.

(** In the text [prompt ++ separators ++ clause] the clause is found, is
    counted once, and its removal leaves [prompt ++ separators]. *)
Lemma clause_found (n : nat) (c : string) :
  Str.contains c (prompt +:+ blank_lines n +:+ c) = true.
Proof.
  apply StrFacts.contains_spec. exists (prompt +:+ blank_lines n), "".
  now rewrite StrFacts.app_assoc, StrFacts.app_nil_r.
Qed.

Lemma clause_removed (n k : nat) (p : Phase) :
  Str.replace (prompt +:+ blank_lines (S n) +:+ clause k p) (clause k p) ""
  = prompt +:+ blank_lines (S n).
Proof.
  pose proof (phase_clause_marker (Z.of_nat k) (Some g) p) as Hm.
  destruct (phase_clause_cons (Z.of_nat k) (Some g) p) as [q Hq].
  rewrite Hq in *. unfold Str.replace.
  rewrite (Scan.replace_go_over_head _ Hm) by assumption.
  rewrite <- (StrFacts.app_nil_r (String "Y" q)) at 2.
  rewrite StrFacts.replace_go_match. simpl Str.replace_go.
  now rewrite StrFacts.app_nil_l, StrFacts.app_nil_r.
Qed.

Lemma clause_counted_once (n k : nat) (p : Phase) :
  Str.count (prompt +:+ blank_lines (S n) +:+ clause k p) (clause k p)
  = 1%nat.
Proof.
  pose proof (phase_clause_marker (Z.of_nat k) (Some g) p) as Hm.
  destruct (phase_clause_cons (Z.of_nat k) (Some g) p) as [q Hq].
  rewrite Hq in *. unfold Str.count.
  rewrite (Scan.count_go_over_head _ Hm) by assumption.
  rewrite <- (StrFacts.app_nil_r (String "Y" q)) at 2.
  now rewrite StrFacts.count_go_match.
Qed.

Lemma other_clause_absent (n k j : nat) (p q : Phase) :
  Str.contains (clause j q) (clause k p) = false ->
  Str.contains (clause j q) (prompt +:+ blank_lines (S n) +:+ clause k p)
  = false.
Proof.
  intros Hnest.
  rewrite (Scan.contains_over_head _
             (phase_clause_marker (Z.of_nat j) (Some g) q)) by assumption.
  exact Hnest.
Qed.

(** The first firing, on the plan just created in phase 1. *)
Lemma hook_first (p : Phase) :
  ps !! 0%nat = Some p ->
  on_tool_end Phase_str (plan_at g ps 1) (StepPromptHook_init prompt)
  = (inr tt,
     {| self_current_phase_id := Some 1;
        agent_instructions := prompt +:+ blank_lines 1 +:+ clause 1%nat p |}).
Proof.
  intros Hp. unfold on_tool_end, bind, get, ret, lift, modify.
  cbn [plan_at current_phase_id goal phases self_current_phase_id
       agent_instructions StepPromptHook_init fst snd].
  destruct (decide (None = Some (Z.of_nat 1))) as [Heq|_]; [discriminate|].
  change (1 <? Z.of_nat 1) with false. cbv iota.
  change (Z.of_nat 1 - 1) with (Z.of_nat 0).
  rewrite (getitem_nat ps 0 p Hp).
  cbn [set_agent_instructions set_self_current_phase_id
       self_current_phase_id agent_instructions].
  reflexivity.
Qed.

(** A firing after the advance from phase [k+1] to phase [k+2]. *)
Lemma hook_next (k : nat) (p q : Phase) :
  ps !! k = Some p -> ps !! S k = Some q ->
  on_tool_end Phase_str (plan_at g ps (S (S k)))
    {| self_current_phase_id := Some (Z.of_nat (S k));
       agent_instructions := prompt +:+ blank_lines (S k) +:+ clause (S k) p |}
  = (inr tt,
     {| self_current_phase_id := Some (Z.of_nat (S (S k)));
        agent_instructions :=
          prompt +:+ blank_lines (S (S k)) +:+ clause (S (S k)) q |}).
Proof.
  intros Hp Hq. unfold on_tool_end, bind, get, ret, lift, modify.
  cbn [plan_at current_phase_id goal phases self_current_phase_id
       agent_instructions fst snd].
  destruct (decide (Some (Z.of_nat (S k)) = Some (Z.of_nat (S (S k)))))
    as [Heq|_]; [injection Heq; lia|].
  destruct (Z.ltb_spec 1 (Z.of_nat (S (S k)))) as [_|Hle]; [|lia].
  replace (Z.of_nat (S (S k)) - 2) with (Z.of_nat k) by lia.
  replace (Z.of_nat (S (S k)) - 1) with (Z.of_nat (S k)) by lia.
  rewrite (getitem_nat ps k p Hp), (getitem_nat ps (S k) q Hq).
  cbn [agent_instructions]. rewrite clause_found.
  cbn [set_agent_instructions set_self_current_phase_id
       self_current_phase_id agent_instructions].
  rewrite clause_removed. do 2 f_equal.
  cbn [blank_lines]. now rewrite !StrFacts.app_assoc.
Qed.

Lemma sequential_calls_S (n : nat) :
  sequential_calls g ps (S (S n))
  = (sequential_calls g ps (S n)
     ++ [CallAdvancePhase (Z.of_nat (S n)) (Z.of_nat (S (S n)))])%list.
Proof.
  unfold sequential_calls. rewrite seq_S, map_app. reflexivity.
Qed.

(** The state of plan, hook and instruction text after [n + 1] sequential
    phase changes. *)
Lemma run_sequential (n : nat) (p : Phase) :
  ps !! n = Some p ->
  run_tools Phase_str Phase_repr (sequential_calls g ps (S n))
    (_agent_state, StepPromptHook_init prompt)
  = (inr tt,
     (plan_at g ps (S n),
      {| self_current_phase_id := Some (Z.of_nat (S n));
         agent_instructions := prompt +:+ blank_lines (S n) +:+ clause (S n) p |})).
Proof.
  revert p. induction n as [|n IH]; intros p Hp.
  - cbn [sequential_calls seq map run_tools]. unfold bind, tool_step.
    cbn [fst snd].
    change (exec_tool Phase_repr
              (CallUpdatePlan (Some 1) (Some g) (Some ps)) _agent_state)
      with (plan_at g ps 1).
    now rewrite (hook_first p Hp).
  - destruct (ps !! n) as [p'|] eqn:Hp'.
    2:{ apply lookup_ge_None in Hp'. apply lookup_lt_Some in Hp. lia. }
    rewrite sequential_calls_S, run_tools_app, (IH p' eq_refl).
    cbn [run_tools]. unfold bind, tool_step. cbn [fst snd].
    assert (Hexec : exec_tool Phase_repr
                      (CallAdvancePhase (Z.of_nat (S n)) (Z.of_nat (S (S n))))
                      (plan_at g ps (S n))
                    = plan_at g ps (S (S n))).
    { cbn [exec_tool].
      destruct (advance_phase_ok Phase_repr (plan_at g ps (S n))
                  (Z.of_nat (S n)) (Z.of_nat (S (S n))) eq_refl)
        as [resp ->].
      reflexivity. }
    rewrite Hexec, (hook_next n p' p Hp' Hp). reflexivity.
Qed.

(** Where the hook does keep a single clause.  Let the plan be created in
    phase 1 and then advanced one phase at a time, goal and phases
    unchanged, every call a turn of its own and the hook firing after it, on
    a prompt in which the text "You are in phase " does not occur.
    After [n] such phase changes ([1 <= n <= len(phases)]) the run has not
    raised, the plan is in phase [n], and the instruction text is the prompt,
    [n] blank-line separators and the clause of phase [n].  When the clause
    of no other phase of the plan occurs inside the clause of phase [n], the
    text then holds exactly one phase clause, that of phase [n]. *)
Theorem single_clause_sequential (n : nat) :
  (1 <= n <= length ps)%nat ->
  let r := run_tools Phase_str Phase_repr (sequential_calls g ps n)
             (_agent_state, StepPromptHook_init prompt) in
  fst r = inr tt
  /\ fst (snd r) = plan_at g ps n
  /\ (exists p,
        ps !! (n - 1)%nat = Some p
        /\ agent_instructions (snd (snd r))
           = prompt +:+ blank_lines n +:+ clause n p)
  /\ ((forall (i : nat) (p q : Phase),
         ps !! i = Some q -> ps !! (n - 1)%nat = Some p -> S i <> n ->
         Str.contains (clause (S i) q) (clause n p) = false) ->
      single_clause Phase_str (fst (snd r))
        (agent_instructions (snd (snd r)))).
Proof.
  intros Hn. destruct n as [|n]; [lia|].
  replace (S n - 1)%nat with n in * by lia.
  destruct (ps !! n) as [p|] eqn:Hp.
  2:{ apply lookup_ge_None in Hp. lia. }
  cbv zeta. rewrite (run_sequential n p Hp). cbn [fst snd agent_instructions].
  split; [reflexivity|]. split; [reflexivity|]. split; [now exists p|].
  intros Hnest.
  exists (Z.of_nat (S n)). split; [reflexivity|]. split.
  - exists p. cbn [plan_at phases].
    replace (Z.to_nat (Z.of_nat (S n) - 1)) with n by lia. split; [exact Hp|lia].
  - cbn [plan_at phases goal]. intros i q Hq. cbv zeta. split.
    + intros Hi. assert (i = n) as -> by lia.
      rewrite Hp in Hq. injection Hq as <-. apply clause_counted_once.
    + intros Hi. apply other_clause_absent.
      apply (Hnest i p q Hq eq_refl). lia.
Qed.

End SingleClause.

Lemma single_clause_sequential_witness :
  let r := run_tools Phase_str_plain Phase_repr_plain
             (sequential_calls "write report" demo_phases 3)
             (_agent_state, StepPromptHook_init "Be helpful.") in
  fst r = inr tt
  /\ fst (snd r) = plan_at "write report" demo_phases 3
  /\ (exists p,
        demo_phases !! 2%nat = Some p
        /\ agent_instructions (snd (snd r))
           = "Be helpful." +:+ blank_lines 3
             +:+ phase_clause Phase_str_plain 3 (Some "write report") p)
  /\ single_clause Phase_str_plain (fst (snd r))
       (agent_instructions (snd (snd r))).
Proof.
  destruct (single_clause_sequential Phase_str_plain Phase_repr_plain
              "write report" demo_phases "Be helpful." eq_refl 3)
    as (Hret & Hplan & Htext & Hone).
  - simpl. lia.
  - split; [exact Hret|]. split; [exact Hplan|]. split; [exact Htext|].
    apply Hone. intros i p q Hq Hp Hi.
    injection Hp as <-.
    destruct i as [|[|[|i]]]; simpl in Hq; try discriminate Hq;
      try (injection Hq as <-; reflexivity).
    now destruct Hi.
Defined.

(** Why the prompt must be free of clauses: a prompt that quotes the clause
    of phase 2 holds that clause twice once phase 2 is reached. *)
Example quoted_clause_counted_twice :
  let c2 := phase_clause Phase_str_plain 2 (Some "write report")
              {| id := 2; title := "deliver";
                 required_capabilities := "messaging" |} in
  let r := run_tools Phase_str_plain Phase_repr_plain
             (sequential_calls "write report" demo_phases 2)
             (_agent_state, StepPromptHook_init ("Example: " +:+ c2)) in
  fst r = inr tt
  /\ Str.count (agent_instructions (snd (snd r))) c2 = 2%nat.
Proof. vm_compute. auto. Qed.

(** The jump from phase 1 to phase 3 as a run of two turns: the hook fires
    after both calls and returns, and the clause of phase 1 is still in the
    instruction text, next to that of phase 3. *)
Lemma single_clause_fails_on_jump :
  let r := run_tools Phase_str_plain Phase_repr_plain jump_calls
             (_agent_state, StepPromptHook_init "Be helpful.") in
  fst r = inr tt
  /\ current_phase_id (fst (snd r)) = Some 3
  /\ (exists p1 p3,
        phases (fst (snd r)) !! 0%nat = Some p1
        /\ phases (fst (snd r)) !! 2%nat = Some p3
        /\ Str.contains
             (phase_clause Phase_str_plain 1 (goal (fst (snd r))) p1)
             (agent_instructions (snd (snd r))) = true
        /\ Str.contains
             (phase_clause Phase_str_plain 3 (goal (fst (snd r))) p3)
             (agent_instructions (snd (snd r))) = true)
  /\ ~ single_clause Phase_str_plain (fst (snd r))
         (agent_instructions (snd (snd r))).
Proof.
  cbv zeta. split; [reflexivity|]. split; [reflexivity|]. split.
  - do 2 eexists. repeat split; reflexivity.
  - intros (k & Hk & _ & Hall).
    assert (k = 3) as -> by (vm_compute in Hk; congruence).
    destruct (Hall 0%nat _ eq_refl) as [_ Habs].
    assert (Z.of_nat 1 <> 3) as Hne by lia.
    specialize (Habs Hne). vm_compute in Habs. discriminate.
Qed.

(** The end-to-end scenario: the hook is a no-op after the file write,
    swaps the clause after the advance, and the task ends completed. *)
Example scenario_run :
  let r := run_tools Phase_str_plain Phase_repr_plain scenario_calls
             (_agent_state, StepPromptHook_init "Be helpful.") in
  fst r = inr tt
  /\ completed (fst (snd r)) = true
  /\ self_current_phase_id (snd (snd r)) = Some 2
  /\ agent_instructions (snd (snd r))
     = "Be helpful." +:+ blank_lines 2
       +:+ phase_clause Phase_str_plain 2 (Some "write report")
             {| id := 2; title := "deliver";
                required_capabilities := "messaging" |}.
Proof. vm_compute. auto. Qed.

(* ===================================================================== *)
(** * Further properties of the code *)
(* ===================================================================== *)

(** ** Plan state: scheduling, repeated calls, what a run of calls keeps *)

Section PlanStateMore.

Variable fromisoformat : string -> option datetime.
Variable Phase_repr : Phase -> string.

(** X1. [agent_schedule_task] raises [ValueError] exactly when the start time
    does not parse, and then leaves the plan state as it was; otherwise it
    returns, the ledger is the old ledger followed by one new entry holding
    the description, the kind and the parsed time, and no other field
    changes. *)
Theorem schedule_task_effect (d t s : string) (st : AgentState) :
  let out := agent_schedule_task fromisoformat d t s st in
  ((exists msg, fst out = inl (ValueError msg)) <-> fromisoformat s = None)
  /\ (fromisoformat s = None -> snd out = st)
  /\ (forall dt, fromisoformat s = Some dt ->
        fst out = inr tt
        /\ scheduled_tasks (snd out)
           = (scheduled_tasks st
              ++ [{| task_description := d; schedule_type := t;
                     start_time := dt |}])%list
        /\ current_phase_id (snd out) = current_phase_id st
        /\ goal (snd out) = goal st
        /\ phases (snd out) = phases st
        /\ completed (snd out) = completed st).
Proof.
  unfold agent_schedule_task, bind, lift, modify. cbv zeta.
  destruct (fromisoformat s) as [dt|]; simpl.
  - split; [split; [intros [msg Hmsg]; discriminate|discriminate]|].
    split; [discriminate|].
    intros dt' Hdt. injection Hdt as <-. repeat split; reflexivity.
  - split; [split; eauto|]. split; [reflexivity|discriminate].
Qed.

Lemma plan_call_keeps (c : PlanCall) (st : AgentState) :
  (completed st = true ->
   completed (plan_call fromisoformat Phase_repr c st) = true)
  /\ exists added,
       scheduled_tasks (plan_call fromisoformat Phase_repr c st)
       = (scheduled_tasks st ++ added)%list
       /\ (length added <= schedule_calls [c])%nat.
Proof.
  destruct c as [c g ps|a b| |d t s]; unfold plan_call.
  - destruct c, g, ps; simpl; (split; [auto|]); exists [];
      rewrite app_nil_r; simpl; auto.
  - unfold agent_advance_phase, bind, get, modify, ret, raise.
    destruct (decide (current_phase_id st <> Some a)); simpl;
      (split; [auto|]); exists []; rewrite app_nil_r; simpl; auto.
  - simpl. split; [auto|]. exists []. rewrite app_nil_r. simpl. auto.
  - unfold agent_schedule_task, bind, lift, modify.
    destruct (fromisoformat s) as [dt|]; simpl.
    + split; [auto|]. eexists. split; [reflexivity|].
      unfold schedule_calls. simpl. lia.
    + split; [auto|]. exists []. rewrite app_nil_r. simpl. auto with arith.
Qed.

(** X2. Along any sequence of agent-management calls, failing ones included,
    the task stays completed once it is, and the ledger of scheduled tasks
    only grows at its end: the old entries stay in place, and at most one
    entry is added per scheduling call. *)
Theorem plan_calls_keep (cs : list PlanCall) (st : AgentState) :
  let st' := plan_calls fromisoformat Phase_repr cs st in
  (completed st = true -> completed st' = true)
  /\ exists added,
       scheduled_tasks st' = (scheduled_tasks st ++ added)%list
       /\ (length added <= schedule_calls cs)%nat.
Proof.
  cbv zeta. revert st. induction cs as [|c cs IH]; intros st.
  - split; [auto|]. exists []. now rewrite app_nil_r.
  - destruct (plan_call_keeps c st) as [Hc (a1 & Ha1 & Hl1)].
    destruct (IH (plan_call fromisoformat Phase_repr c st))
      as [Hc' (a2 & Ha2 & Hl2)].
    unfold plan_calls in *. cbn [fold_left]. split; [auto|].
    exists (a1 ++ a2)%list. rewrite Ha2, Ha1, <- app_assoc. split; [reflexivity|].
    rewrite length_app. unfold schedule_calls in *. cbn [List.filter] in *.
    destruct c; cbn [length] in *; lia.
Qed.

(** X3. An advance cannot be repeated: after a successful advance from [a]
    to another phase [b], the same call again raises [ValueError] and leaves
    the plan in phase [b]. *)
Theorem advance_phase_not_repeatable (st : AgentState) (a b : Z) :
  current_phase_id st = Some a -> a <> b ->
  let st1 := snd (agent_advance_phase Phase_repr a b st) in
  current_phase_id st1 = Some b
  /\ exists msg,
       agent_advance_phase Phase_repr a b st1 = (inl (ValueError msg), st1).
Proof.
  intros Hcur Hab. cbv zeta.
  destruct (advance_phase_ok Phase_repr st a b Hcur) as [resp ->].
  cbn [snd]. split; [reflexivity|].
  apply advance_phase_mismatch. simpl. congruence.
Qed.

(** X4. A plan update is idempotent: the same call again returns the same
    response and leaves the same state; a call without arguments changes
    nothing. *)
Theorem update_plan_idempotent (c : option Z) (g : option string)
    (ps : option (list Phase)) (st : AgentState) :
  agent_update_plan Phase_repr c g ps
    (snd (agent_update_plan Phase_repr c g ps st))
  = agent_update_plan Phase_repr c g ps st
  /\ snd (agent_update_plan Phase_repr None None None st) = st.
Proof.
  split.
  - unfold agent_update_plan, bind, get, modify, ret.
    destruct c, g, ps; reflexivity.
  - destruct st; reflexivity.
Qed.

End PlanStateMore.

Lemma advance_phase_not_repeatable_witness :
  current_phase_id
    (snd (agent_advance_phase Phase_repr_plain 1 2 (demo_plan 1))) = Some 2
  /\ exists msg,
       agent_advance_phase Phase_repr_plain 1 2
         (snd (agent_advance_phase Phase_repr_plain 1 2 (demo_plan 1)))
       = (inl (ValueError msg),
          snd (agent_advance_phase Phase_repr_plain 1 2 (demo_plan 1))).
Proof.
  apply (advance_phase_not_repeatable Phase_repr_plain (demo_plan 1) 1 2);
    [reflexivity|lia].
Defined.

Example schedule_then_bad_timestamp :
  scheduled_tasks
    (plan_calls fromisoformat_demo Phase_repr_plain
       [ PScheduleTask "send report" "once" "2025-06-18 09:00:00";
         PScheduleTask "send report" "once" "tomorrow";
         PEndTask;
         PUpdatePlan (Some 1) (Some "write report") (Some demo_phases) ]
       _agent_state)
  = [ {| task_description := "send report"; schedule_type := "once";
         start_time := {| year := 2025; month := 6; day := 18; hour := 9;
                          minute := 0; second := 0; microsecond := 0 |} |} ].
Proof. reflexivity. Qed.

(** ** The hook beyond the sequential run *)

Lemma getitem_negative {A} (l : list A) (i : Z) :
  i < 0 ->
  getitem l i
  = if 0 <=? i + Z.of_nat (length l)
    then match l !! Z.to_nat (i + Z.of_nat (length l)) with
         | Some x => inr x
         | None => inl (IndexError "list index out of range")
         end
    else inl (IndexError "list index out of range").
Proof.
  intros Hi. unfold getitem.
  destruct (Z.ltb_spec i 0) as [_|Hge]; [|lia].
  destruct (Z.leb_spec 0 (i + Z.of_nat (length l))) as [Hle|Hlt];
    [|reflexivity].
  destruct (Z.ltb_spec (i + Z.of_nat (length l)) (Z.of_nat (length l)));
    [reflexivity|lia].
Qed.

Section HookMore.

Variable Phase_str : Phase -> string.
Variable Phase_repr : Phase -> string.

Lemma on_tool_end_returns_in_sync (st : AgentState) (h h' : HookEnv) :
  on_tool_end Phase_str st h = (inr tt, h') ->
  self_current_phase_id h' = current_phase_id st.
Proof.
  intros Hrun.
  destruct (on_tool_end_cases Phase_str st h) as [[Hsame Hret]|Hset];
    rewrite Hrun in *; cbn [fst snd] in *.
  - subst h'. now apply Hret.
  - exact Hset.
Qed.

Lemma leaves_phase_id_exec (c : ToolCall) (st : AgentState) :
  leaves_phase_id c = true ->
  current_phase_id (exec_tool Phase_repr c st) = current_phase_id st.
Proof.
  destruct c as [[k|] g ps|a b| |]; try discriminate; intros _;
    try reflexivity.
  destruct g, ps; reflexivity.
Qed.

(** X5. Once the hook holds the current phase id, calls that do not name a
    phase id never change the instruction text, how many there are: file
    and message tools, ending the task, and also a plan update that replaces
    goal or phases only, after which the clause in the text still describes
    the goal and phase it was built from. *)
Theorem hook_stable_without_phase_change (cs : list ToolCall)
    (st : AgentState) (h : HookEnv) :
  self_current_phase_id h = current_phase_id st ->
  forallb leaves_phase_id cs = true ->
  exists st',
    run_tools Phase_str Phase_repr cs (st, h) = (inr tt, (st', h))
    /\ current_phase_id st' = current_phase_id st.
Proof.
  revert st. induction cs as [|c cs IH]; intros st Hsync Hcs.
  - exists st. split; reflexivity.
  - cbn [forallb] in Hcs. apply andb_prop in Hcs as [Hc Hcs].
    pose proof (leaves_phase_id_exec c st Hc) as Hexec.
    destruct (IH (exec_tool Phase_repr c st)) as (st' & Hrun & Hcur);
      [congruence|exact Hcs|].
    exists st'. split; [|congruence].
    cbn [run_tools]. unfold bind, tool_step. cbn [fst snd].
    rewrite (on_tool_end_same Phase_str) by congruence. exact Hrun.
Qed.

(** X6. After every run of at least one tool call in which no firing of the
    hook raised, the phase id the hook holds is the current phase id of the
    plan state. *)
Theorem hook_in_sync_after_run (cs : list ToolCall)
    (w w' : AgentState * HookEnv) :
  cs <> [] ->
  run_tools Phase_str Phase_repr cs w = (inr tt, w') ->
  self_current_phase_id (snd w') = current_phase_id (fst w').
Proof.
  revert w. induction cs as [|c cs IH]; intros w Hne Hrun; [contradiction|].
  cbn [run_tools] in Hrun. unfold bind in Hrun.
  destruct (tool_step Phase_str Phase_repr c w) as [[e|[]] w1] eqn:Hstep;
    [discriminate|].
  destruct cs as [|c' cs].
  - cbn [run_tools] in Hrun. unfold ret in Hrun. injection Hrun as <-.
    unfold tool_step in Hstep.
    destruct (on_tool_end Phase_str (exec_tool Phase_repr c (fst w)) (snd w))
      as [r h'] eqn:Hhook.
    injection Hstep as -> <-. cbn [fst snd].
    now apply (on_tool_end_returns_in_sync _ (snd w)).
  - apply (IH w1); [discriminate|exact Hrun].
Qed.


(** X8. A phase id [k <= 0] is not refused: Python counts the index [k - 1]
    from the end of the list.  With [k > -len(phases)] the hook returns,
    having appended a clause numbered [k] that describes the phase at
    position [len(phases) + k - 1], and removes nothing; below that it
    records [k], leaves the text and raises [IndexError]. *)
Theorem hook_nonpositive_phase_id (st : AgentState) (h : HookEnv) (k : Z) :
  let n := Z.of_nat (length (phases st)) in
  current_phase_id st = Some k ->
  self_current_phase_id h <> Some k ->
  k <= 0 ->
  (forall p, 0 <= k - 1 + n ->
     phases st !! Z.to_nat (k - 1 + n) = Some p ->
     on_tool_end Phase_str st h
     = (inr tt,
        {| self_current_phase_id := Some k;
           agent_instructions :=
             agent_instructions h +:+ NL +:+ NL
             +:+ phase_clause Phase_str k (goal st) p |}))
  /\ (k - 1 + n < 0 ->
      on_tool_end Phase_str st h
      = (inl (IndexError "list index out of range"),
         {| self_current_phase_id := Some k;
            agent_instructions := agent_instructions h |})).
Proof.
  intros n Hcur Hnew Hk.
  assert (Hunfold : on_tool_end Phase_str st h
    = match getitem (phases st) (k - 1) with
      | inl e => (inl e, {| self_current_phase_id := Some k;
                            agent_instructions := agent_instructions h |})
      | inr p => (inr tt,
                  {| self_current_phase_id := Some k;
                     agent_instructions :=
                       agent_instructions h +:+ NL +:+ NL
                       +:+ phase_clause Phase_str k (goal st) p |})
      end).
  { unfold on_tool_end, bind, get, ret, lift, modify. rewrite Hcur.
    destruct (decide (self_current_phase_id h = Some k)); [contradiction|].
    destruct (Z.ltb_spec 1 k) as [Hlt|_]; [lia|].
    destruct (getitem (phases st) (k - 1)); reflexivity. }
  rewrite Hunfold, getitem_negative by lia. fold n. split.
  - intros p Hge Hp. destruct (Z.leb_spec 0 (k - 1 + n)); [|lia].
    now rewrite Hp.
  - intros Hlt. destruct (Z.leb_spec 0 (k - 1 + n)); [lia|reflexivity].
Qed.

End HookMore.

Lemma hook_stable_without_phase_change_witness :
  exists st',
    run_tools Phase_str_plain Phase_repr_plain
      [ CallOther; CallUpdatePlan None (Some "write a poem") None;
        CallEndTask ]
      (demo_plan 1,
       {| self_current_phase_id := Some 1;
          agent_instructions :=
            "Be helpful." +:+ blank_lines 1
            +:+ phase_clause Phase_str_plain 1 (Some "write report")
                  {| id := 1; title := "research";
                     required_capabilities := "web-search" |} |})
    = (inr tt,
       (st',
        {| self_current_phase_id := Some 1;
           agent_instructions :=
             "Be helpful." +:+ blank_lines 1
             +:+ phase_clause Phase_str_plain 1 (Some "write report")
                   {| id := 1; title := "research";
                      required_capabilities := "web-search" |} |}))
    /\ current_phase_id st' = current_phase_id (demo_plan 1).
Proof.
  apply (hook_stable_without_phase_change Phase_str_plain Phase_repr_plain);
    reflexivity.
Defined.

Lemma hook_in_sync_after_run_witness :
  self_current_phase_id
    (snd (snd (run_tools Phase_str_plain Phase_repr_plain jump_calls
                 (_agent_state, StepPromptHook_init "Be helpful."))))
  = current_phase_id
      (fst (snd (run_tools Phase_str_plain Phase_repr_plain jump_calls
                   (_agent_state, StepPromptHook_init "Be helpful.")))).
Proof.
  apply (hook_in_sync_after_run Phase_str_plain Phase_repr_plain jump_calls
           (_agent_state, StepPromptHook_init "Be helpful."));
    [discriminate|reflexivity].
Defined.


Lemma hook_nonpositive_phase_id_witness :
  on_tool_end Phase_str_plain (demo_plan 0) (StepPromptHook_init "Be helpful.")
  = (inr tt,
     {| self_current_phase_id := Some 0;
        agent_instructions :=
          "Be helpful." +:+ NL +:+ NL
          +:+ phase_clause Phase_str_plain 0 (Some "write report")
                {| id := 3; title := "archive"; required_capabilities := "" |} |}).
Proof.
  destruct (hook_nonpositive_phase_id Phase_str_plain (demo_plan 0)
              (StepPromptHook_init "Be helpful.") 0)
    as [Hwrap _]; [reflexivity|discriminate|lia|].
  apply Hwrap; [simpl; lia|reflexivity].
Defined.

(** ** File tools: reading, writing, appending, deleting *)

Section FilesMore.

Variable _resolve : string -> string.
Variable parent : string -> string.
Variable mkdir : string -> M (gmap string node) unit.
Variable rmtree : string -> M (gmap string node) unit.

Lemma file_read_file (fs : gmap string node) (file content : string)
    (start_line end_line : option Z) (sudo : bool) :
  fs !! _resolve file = Some (File content) ->
  file_read _resolve file start_line end_line sudo fs
  = (if negb (bool_decide (start_line = None))
        || negb (bool_decide (end_line = None))
     then
       let lines := Str.splitlines content in
       let start := default 0 start_line in
       let end_ := default (Z.of_nat (length lines)) end_line in
       if (start <? 0) || (Z.of_nat (length lines) <? end_) || (end_ <=? start)
       then inl (ValueError
              ("Invalid line range: start_line=" +:+ str_opt_int start_line
               +:+ ", end_line=" +:+ str_opt_int end_line +:+ ", file has "
               +:+ pretty (Z.of_nat (length lines)) +:+ " lines"))
       else inr (Str.join NL (slice lines start end_))
     else inr (Str.universal_newlines content), fs).
Proof.
  intros Hfile. unfold file_read, bind, get, read_text, raise, ret.
  destruct (decide (fs !! _resolve file = None)) as [Hn|_];
    [rewrite Hfile in Hn; discriminate|].
  rewrite Hfile, !StrFacts.splitlines_universal_newlines.
  destruct (negb (bool_decide (start_line = None))
            || negb (bool_decide (end_line = None))); [|reflexivity].
  cbv zeta.
  match goal with
  | |- context [if (?a || ?b || ?c) then _ else _] => destruct (a || b || c)
  end; reflexivity.
Qed.

(** X9. [file_read] never changes the file system.  A missing path raises
    [FileNotFoundError] with the path as the caller wrote it; a directory
    raises [IsADirectoryError]; without a line range the file is returned as
    text mode reads it, CR LF and CR as LF, which is the stored content when
    that holds no carriage return. *)
Theorem file_read_errors (fs : gmap string node) (file : string)
    (start_line end_line : option Z) (sudo : bool) :
  snd (file_read _resolve file start_line end_line sudo fs) = fs
  /\ (fs !! _resolve file = None ->
      fst (file_read _resolve file start_line end_line sudo fs)
      = inl (FileNotFoundError ("File not found: " +:+ file)))
  /\ (fs !! _resolve file = Some Dir ->
      exists msg,
        fst (file_read _resolve file start_line end_line sudo fs)
        = inl (IsADirectoryError msg))
  /\ (forall content,
        fs !! _resolve file = Some (File content) ->
        fst (file_read _resolve file None None sudo fs)
        = inr (Str.universal_newlines content)
        /\ (Str.contains (String "013" "") content = false ->
            fst (file_read _resolve file None None sudo fs) = inr content)).
Proof.
  destruct (fs !! _resolve file) as [[content|]|] eqn:Hfile.
  - split; [now rewrite (file_read_file _ _ _ _ _ _ Hfile)|].
    split; [discriminate|]. split; [discriminate|].
    intros c Hc. injection Hc as <-.
    rewrite (file_read_file _ _ _ _ _ _ Hfile). cbn [fst negb orb].
    split; [reflexivity|]. intros Hcr.
    now rewrite StrFacts.universal_newlines_id.
  - assert (Hout : file_read _resolve file start_line end_line sudo fs
                   = (inl (IsADirectoryError (_resolve file)), fs)).
    { unfold file_read, bind, get, read_text, raise, ret.
      destruct (decide (fs !! _resolve file = None)) as [Hn|_];
        [rewrite Hfile in Hn; discriminate|]. now rewrite Hfile. }
    rewrite Hout. split; [reflexivity|]. split; [discriminate|].
    split; [eauto|discriminate].
  - assert (Hout : file_read _resolve file start_line end_line sudo fs
                   = (inl (FileNotFoundError ("File not found: " +:+ file)),
                      fs)).
    { unfold file_read, bind, get, read_text, raise, ret.
      destruct (decide (fs !! _resolve file = None)); [reflexivity|].
      contradiction. }
    rewrite Hout. split; [reflexivity|]. split; [reflexivity|].
    split; discriminate.
Qed.

(** X10. An empty file has no lines, so every read of it with a start or an
    end line raises [ValueError], whatever the numbers; read without a range
    it gives the empty string. *)
Theorem file_read_empty_file (fs : gmap string node) (file : string)
    (start_line end_line : option Z) (sudo : bool) :
  fs !! _resolve file = Some (File "") ->
  start_line <> None \/ end_line <> None ->
  (exists msg,
     file_read _resolve file start_line end_line sudo fs
     = (inl (ValueError msg), fs))
  /\ file_read _resolve file None None sudo fs = (inr "", fs).
Proof.
  intros Hfile Hgiven. rewrite !(file_read_file _ _ _ _ _ _ Hfile).
  split; [|reflexivity].
  assert (Hgiven' : negb (bool_decide (start_line = None))
                    || negb (bool_decide (end_line = None)) = true).
  { destruct start_line, end_line; try reflexivity.
    destruct Hgiven; congruence. }
  rewrite Hgiven'. cbv zeta.
  change (Str.splitlines "") with (@nil string). cbn [length].
  change (Z.of_nat 0) with 0.
  rewrite (proj2 (range_test _ _ 0)); [eauto|].
  destruct end_line as [b|]; cbn [default]; lia.
Qed.

Lemma file_write_unfold (path content : string) (fs : gmap string node) :
  file_write _resolve parent mkdir path content fs
  = match mkdir (parent (_resolve path)) fs with
    | (inl e, fs1) => (inl e, fs1)
    | (inr _, fs1) =>
        match fs1 !! _resolve path with
        | Some Dir => (inl (IsADirectoryError (_resolve path)), fs1)
        | _ => (inr ("File written: " +:+ path),
                <[_resolve path := File content]> fs1)
        end
    end.
Proof.
  unfold file_write, bind, write_text, ret.
  destruct (mkdir (parent (_resolve path)) fs) as [[e|[]] fs1];
    [reflexivity|].
  destruct (fs1 !! _resolve path) as [[c|]|]; reflexivity.
Qed.

Lemma file_append_text_unfold (path content : string)
    (fs : gmap string node) :
  file_append_text _resolve parent mkdir path content fs
  = match mkdir (parent (_resolve path)) fs with
    | (inl e, fs1) => (inl e, fs1)
    | (inr _, fs1) =>
        match fs1 !! _resolve path with
        | Some Dir => (inl (IsADirectoryError (_resolve path)), fs1)
        | Some (File old) =>
            (inr ("File appended: " +:+ path),
             <[_resolve path := File (old +:+ content)]> fs1)
        | None =>
            (inr ("File appended: " +:+ path),
             <[_resolve path := File content]> fs1)
        end
    end.
Proof.
  unfold file_append_text, bind, append_text, ret.
  destruct (mkdir (parent (_resolve path)) fs) as [[e|[]] fs1];
    [reflexivity|].
  destruct (fs1 !! _resolve path) as [[c|]|]; reflexivity.
Qed.

Hypothesis mkdir_ok : mkdir_keeps_files mkdir.

Lemma mkdir_files (d : string) (fs fs1 : gmap string node) (r : exn + unit)
    (q c : string) :
  mkdir d fs = (r, fs1) ->
  fs1 !! q = Some (File c) <-> fs !! q = Some (File c).
Proof. intros Hmk. rewrite <- (mkdir_ok d fs q c), Hmk. reflexivity. Qed.

(** X11. [file_write], given that [mkdir] touches no file: when it returns,
    the path holds exactly the new content; no other file is created,
    changed or removed, whether the call returns or raises; and when it
    raises, the file at the path is untouched as well. *)
Theorem file_write_effect (path content : string) (fs : gmap string node) :
  let p := _resolve path in
  let out := file_write _resolve parent mkdir path content fs in
  (forall resp, fst out = inr resp ->
     resp = "File written: " +:+ path
     /\ snd out !! p = Some (File content))
  /\ (forall q c, q <> p ->
        snd out !! q = Some (File c) <-> fs !! q = Some (File c))
  /\ (forall e, fst out = inl e ->
        forall q c, snd out !! q = Some (File c) <-> fs !! q = Some (File c)).
Proof.
  cbv zeta. rewrite file_write_unfold.
  destruct (mkdir (parent (_resolve path)) fs) as [[e|[]] fs1] eqn:Hmk.
  - split; [discriminate|]. split; intros; eapply mkdir_files; eauto.
  - destruct (fs1 !! _resolve path) as [[c1|]|] eqn:Hp; cbn [fst snd].
    + split; [intros resp [= <-]; split;
                [reflexivity|apply lookup_insert_eq]|].
      split; [|discriminate].
      intros q c Hq. rewrite lookup_insert_ne by congruence.
      eapply mkdir_files; eauto.
    + split; [discriminate|]. split; intros; eapply mkdir_files; eauto.
    + split; [intros resp [= <-]; split;
                [reflexivity|apply lookup_insert_eq]|].
      split; [|discriminate].
      intros q c Hq. rewrite lookup_insert_ne by congruence.
      eapply mkdir_files; eauto.
Qed.

(** X12. [file_append_text], given that [mkdir] touches no file: when it
    returns, the path holds the old content followed by the new one, or the
    new content alone when there was no file (appending the empty string
    still creates the file); no other file changes. *)
Theorem file_append_text_effect (path content : string)
    (fs : gmap string node) :
  let p := _resolve path in
  let out := file_append_text _resolve parent mkdir path content fs in
  (forall resp, fst out = inr resp ->
     snd out !! p
     = Some (File (match fs !! p with
                   | Some (File old) => old +:+ content
                   | _ => content
                   end)))
  /\ (forall q c, q <> p ->
        snd out !! q = Some (File c) <-> fs !! q = Some (File c))
  /\ (forall e, fst out = inl e ->
        forall q c, snd out !! q = Some (File c) <-> fs !! q = Some (File c)).
Proof.
  cbv zeta. rewrite file_append_text_unfold.
  destruct (mkdir (parent (_resolve path)) fs) as [[e|[]] fs1] eqn:Hmk.
  - split; [discriminate|]. split; intros; eapply mkdir_files; eauto.
  - destruct (fs1 !! _resolve path) as [[c1|]|] eqn:Hp; cbn [fst snd].
    + apply (mkdir_files _ _ _ _ _ _ Hmk) in Hp as Hp0. rewrite Hp0.
      split; [intros resp _; apply lookup_insert_eq|].
      split; [|discriminate].
      intros q c Hq. rewrite lookup_insert_ne by congruence.
      eapply mkdir_files; eauto.
    + split; [discriminate|]. split; intros; eapply mkdir_files; eauto.
    + assert (Hnofile : forall old, fs !! _resolve path <> Some (File old)).
      { intros old Hold. apply (mkdir_files _ _ _ _ _ _ Hmk) in Hold.
        congruence. }
      split.
      * intros resp _. rewrite lookup_insert_eq.
        destruct (fs !! _resolve path) as [[old|]|]; try reflexivity.
        now destruct (Hnofile old).
      * split; [|discriminate].
        intros q c Hq. rewrite lookup_insert_ne by congruence.
        eapply mkdir_files; eauto.
Qed.

(** X13. A write followed by an append, both returning, leaves the two
    contents one after the other in the file. *)
Theorem file_write_then_append (path c1 c2 : string) (fs : gmap string node)
    (r1 r2 : string) :
  let out1 := file_write _resolve parent mkdir path c1 fs in
  let out2 := file_append_text _resolve parent mkdir path c2 (snd out1) in
  fst out1 = inr r1 ->
  fst out2 = inr r2 ->
  snd out2 !! _resolve path = Some (File (c1 +:+ c2)).
Proof.
  cbv zeta. intros H1 H2.
  assert (Hp : snd (file_write _resolve parent mkdir path c1 fs)
               !! _resolve path = Some (File c1)).
  { revert H1. rewrite file_write_unfold.
    destruct (mkdir (parent (_resolve path)) fs) as [[e|[]] fs1];
      [discriminate|].
    destruct (fs1 !! _resolve path) as [[c|]|]; try discriminate;
      intros _; apply lookup_insert_eq. }
  revert H2. rewrite file_append_text_unfold.
  destruct (mkdir (parent (_resolve path))
              (snd (file_write _resolve parent mkdir path c1 fs)))
    as [[e|[]] fs2] eqn:Hmk; [discriminate|].
  apply (mkdir_files _ _ _ _ _ _ Hmk) in Hp. rewrite Hp. intros _.
  apply lookup_insert_eq.
Qed.

End FilesMore.

Section FilesDelete.

Variable _resolve : string -> string.
Variable rmtree : string -> M (gmap string node) unit.

(** X14. [file_delete] of a path that is no directory always returns and
    leaves the file system without that path and otherwise as it was: a
    missing target is tolerated and changes nothing, deleting twice is
    deleting once, and a later [file_read] of the path raises
    [FileNotFoundError]. *)
Theorem file_delete_effect (path : string) (fs : gmap string node) :
  fs !! _resolve path <> Some Dir ->
  file_delete _resolve rmtree path fs
  = (inr ("File deleted: " +:+ path), delete (_resolve path) fs)
  /\ (fs !! _resolve path = None -> delete (_resolve path) fs = fs)
  /\ file_delete _resolve rmtree path (delete (_resolve path) fs)
     = (inr ("File deleted: " +:+ path), delete (_resolve path) fs)
  /\ forall start_line end_line sudo,
       file_read _resolve path start_line end_line sudo
         (delete (_resolve path) fs)
       = (inl (FileNotFoundError ("File not found: " +:+ path)),
          delete (_resolve path) fs).
Proof.
  intros Hnodir.
  assert (Hdel : forall fs' : gmap string node,
            fs' !! _resolve path <> Some Dir ->
            file_delete _resolve rmtree path fs'
            = (inr ("File deleted: " +:+ path), delete (_resolve path) fs')).
  { intros fs' Hfs'. unfold file_delete, bind, get, unlink_missing_ok,
      modify, ret.
    destruct (fs' !! _resolve path) as [[c|]|]; try reflexivity.
    now destruct Hfs'. }
  split; [now apply Hdel|]. split; [apply delete_id|]. split.
  - rewrite Hdel by (rewrite lookup_delete_eq; discriminate).
    now rewrite delete_delete_eq.
  - intros start_line end_line sudo.
    unfold file_read, bind, get, raise.
    destruct (decide (delete (_resolve path) fs !! _resolve path = None))
      as [_|Hn]; [reflexivity|].
    destruct Hn. apply lookup_delete_eq.
Qed.

(** X15. [file_replace_text] changes at most the one file: a call that
    raises leaves the whole file system as it was, a call that returns
    leaves every other path as it was, and the path itself then holds the
    text of the file as text mode reads it (CR LF and CR as LF) with
    [old_text] replaced.  It never creates a file: on a missing path it
    raises [FileNotFoundError], on a directory [IsADirectoryError]. *)
Theorem file_replace_text_frame (path old_text new_text : string)
    (fs : gmap string node) :
  let p := _resolve path in
  let out := file_replace_text _resolve path old_text new_text fs in
  (forall e, fst out = inl e -> snd out = fs)
  /\ (forall q, q <> p -> snd out !! q = fs !! q)
  /\ (forall resp, fst out = inr resp ->
        exists content,
          fs !! p = Some (File content)
          /\ snd out !! p
             = Some (File (Str.replace (Str.universal_newlines content)
                             old_text new_text)))
  /\ (fs !! p = None -> exists msg, out = (inl (FileNotFoundError msg), fs))
  /\ (fs !! p = Some Dir ->
      exists msg, out = (inl (IsADirectoryError msg), fs)).
Proof.
  cbv zeta. unfold file_replace_text, bind, read_text, write_text, raise, ret.
  destruct (fs !! _resolve path) as [[content|]|] eqn:Hp; cbn [fst snd].
  - destruct (1 <? Str.count (Str.universal_newlines content) old_text)%nat;
      cbn [fst snd].
    + repeat split; try discriminate; eauto.
    + rewrite Hp. cbn [fst snd]. split; [discriminate|].
      split; [intros q Hq; now rewrite lookup_insert_ne by congruence|].
      split; [|split; discriminate].
      intros resp _. exists content. split; [reflexivity|].
      apply lookup_insert_eq.
  - repeat split; try discriminate; eauto.
  - repeat split; try discriminate; eauto.
Qed.

End FilesDelete.

Lemma mkdir_flat_keeps_files : mkdir_keeps_files mkdir_flat.
Proof.
  intros d fs q c. unfold mkdir_flat.
  destruct (fs !! d) as [[c'|]|] eqn:Hd; cbn [snd]; try reflexivity.
  destruct (decide (d = q)) as [->|Hne].
  - rewrite lookup_insert_eq, Hd. split; discriminate.
  - now rewrite lookup_insert_ne.
Qed.

Lemma file_read_empty_file_witness :
  exists msg,
    file_read resolve_id "/empty.txt" (Some 0) None false
      (<["/empty.txt" := File ""]> demo_fs)
    = (inl (ValueError msg), <["/empty.txt" := File ""]> demo_fs).
Proof.
  destruct (file_read_empty_file resolve_id
              (<["/empty.txt" := File ""]> demo_fs) "/empty.txt"
              (Some 0) None false) as [Hraise _];
    [reflexivity|left; discriminate|exact Hraise].
Defined.

Lemma file_write_effect_witness :
  snd (file_write resolve_id parent_root mkdir_flat "/new.txt" "hello" demo_fs)
  !! "/new.txt" = Some (File "hello")
  /\ snd (file_write resolve_id parent_root mkdir_flat "/new.txt" "hello"
            demo_fs) !! "/ab.txt" = Some (File text_a_b).
Proof.
  destruct (file_write_effect resolve_id parent_root mkdir_flat
              mkdir_flat_keeps_files "/new.txt" "hello" demo_fs)
    as (Hat & Hother & _).
  split.
  - apply (Hat "File written: /new.txt"). reflexivity.
  - apply Hother; [discriminate|reflexivity].
Defined.

Lemma file_append_text_effect_witness :
  snd (file_append_text resolve_id parent_root mkdir_flat "/ab.txt" "c"
         demo_fs) !! "/ab.txt" = Some (File (text_a_b +:+ "c"))
  /\ snd (file_append_text resolve_id parent_root mkdir_flat "/new.txt" ""
            demo_fs) !! "/new.txt" = Some (File "").
Proof.
  split.
  - destruct (file_append_text_effect resolve_id parent_root mkdir_flat
                mkdir_flat_keeps_files "/ab.txt" "c" demo_fs) as (Hat & _).
    apply (Hat "File appended: /ab.txt"). reflexivity.
  - destruct (file_append_text_effect resolve_id parent_root mkdir_flat
                mkdir_flat_keeps_files "/new.txt" "" demo_fs) as (Hat & _).
    apply (Hat "File appended: /new.txt"). reflexivity.
Defined.

Lemma file_write_then_append_witness :
  snd (file_append_text resolve_id parent_root mkdir_flat "/log.txt" "two"
         (snd (file_write resolve_id parent_root mkdir_flat "/log.txt" "one"
                 demo_fs)))
  !! "/log.txt" = Some (File "onetwo").
Proof.
  apply (file_write_then_append resolve_id parent_root mkdir_flat
           mkdir_flat_keeps_files "/log.txt" "one" "two" demo_fs
           "File written: /log.txt" "File appended: /log.txt");
    reflexivity.
Defined.

Lemma file_delete_effect_witness :
  file_delete resolve_id rmtree_flat "/ab.txt" demo_fs
  = (inr "File deleted: /ab.txt", delete "/ab.txt" demo_fs)
  /\ file_delete resolve_id rmtree_flat "/none.txt" demo_fs
     = (inr "File deleted: /none.txt", demo_fs).
Proof.
  split.
  - apply (file_delete_effect resolve_id rmtree_flat "/ab.txt" demo_fs).
    discriminate.
  - destruct (file_delete_effect resolve_id rmtree_flat "/none.txt" demo_fs)
      as (Hdel & Hid & _); [discriminate|].
    rewrite Hdel. now rewrite Hid.
Defined.

(** ** Lines read are lines again *)

Module Lines.
Import StrFacts.

Lemma rev_app_rev_app (x y z : string) :
  String.rev_app (String.rev_app x y) z = String.rev_app y (x +:+ z).
Proof.
  revert y z. induction x as [|a x IH]; intros y z; [reflexivity|].
  cbn [String.rev_app]. rewrite IH. reflexivity.
Qed.

Lemma rev_rev_app (x : string) : String.rev (String.rev_app x "") = x.
Proof.
  unfold String.rev. rewrite rev_app_rev_app. cbn [String.rev_app].
  apply app_nil_r.
Qed.

Lemma rev_app_empty (x y : string) :
  String.rev_app x y = "" -> x = "" /\ y = "".
Proof.
  revert y. induction x as [|a x IH]; intros y H; [now split|].
  cbn [String.rev_app] in H. apply IH in H as [_ H]. discriminate.
Qed.

Lemma no_linebreak_rev_app (x y : string) :
  no_linebreak (String.rev_app x y) = no_linebreak x && no_linebreak y.
Proof.
  revert y. induction x as [|a x IH]; intros y; [reflexivity|].
  cbn [String.rev_app no_linebreak]. rewrite IH. cbn [no_linebreak].
  destruct (Str.is_linebreak a), (no_linebreak x); reflexivity.
Qed.

(** A stretch without line boundaries is read into the current line. *)
Lemma splitlines_go_line (x cur t : string) :
  no_linebreak x = true ->
  Str.splitlines_go cur (x +:+ t)
  = Str.splitlines_go (String.rev_app x cur) t.
Proof.
  revert cur. induction x as [|a x IH]; intros cur Hx; [reflexivity|].
  cbn [no_linebreak] in Hx. apply andb_prop in Hx as [Ha Hx].
  rewrite app_cons. cbn [Str.splitlines_go String.rev_app].
  destruct (Ascii.eqb_spec a "013") as [->|_]; [discriminate|].
  destruct (Str.is_linebreak a); [discriminate|]. now apply IH.
Qed.

Lemma splitlines_go_nl (cur t : string) :
  Str.splitlines_go cur (NL +:+ t)
  = String.rev cur :: Str.splitlines_go "" t.
Proof. reflexivity. Qed.

(** Joining lines by ["\n"] and splitting again gives the lines back when no
    line holds a line boundary and the last line is not empty. *)
Lemma splitlines_join (ls : list string) :
  Forall (fun l => no_linebreak l = true) ls ->
  last ls <> Some "" ->
  Str.splitlines (Str.join NL ls) = ls.
Proof.
  unfold Str.splitlines.
  induction ls as [|x ls IH]; intros Hall Hlast; [reflexivity|].
  inversion Hall as [|? ? Hx Hls]; subst.
  destruct ls as [|y ls].
  - cbn [Str.join]. rewrite <- (app_nil_r x) at 1.
    rewrite splitlines_go_line by assumption. cbn [Str.splitlines_go].
    destruct (String.rev_app x "") eqn:Hrev.
    + apply rev_app_empty in Hrev as [-> _]. now destruct Hlast.
    + rewrite <- Hrev, rev_rev_app. reflexivity.
  - change (Str.join NL (x :: y :: ls))
      with (x +:+ NL +:+ Str.join NL (y :: ls)).
    rewrite splitlines_go_line, splitlines_go_nl, rev_rev_app by assumption.
    f_equal. apply IH; [assumption|]. exact Hlast.
Qed.

(** No line that [splitlines] gives holds a line boundary. *)
Lemma splitlines_go_no_linebreak (n : nat) (cur s : string) :
  (String.length s <= n)%nat ->
  no_linebreak cur = true ->
  Forall (fun l => no_linebreak l = true) (Str.splitlines_go cur s).
Proof.
  revert cur s. induction n as [|n IH]; intros cur s Hlen Hcur.
  - destruct s; [|simpl in Hlen; lia]. cbn [Str.splitlines_go].
    destruct cur eqn:Hc; constructor; [|constructor].
    rewrite <- Hc. unfold String.rev.
    rewrite no_linebreak_rev_app, Hc, Hcur. reflexivity.
  - assert (Hrev : no_linebreak (String.rev cur) = true).
    { unfold String.rev. now rewrite no_linebreak_rev_app, Hcur. }
    destruct s as [|a s].
    { cbn [Str.splitlines_go]. destruct cur; constructor; [|constructor].
      exact Hrev. }
    simpl in Hlen. cbn [Str.splitlines_go].
    destruct (Ascii.eqb a "013").
    + assert (Hs : Forall (fun l => no_linebreak l = true)
                     (Str.splitlines_go "" s))
        by (apply IH; [lia|reflexivity]).
      destruct s as [|b s']; [now constructor|].
      assert (Hs' : Forall (fun l => no_linebreak l = true)
                      (Str.splitlines_go "" s'))
        by (apply IH; [simpl in Hlen; lia|reflexivity]).
      destruct b as [[] [] [] [] [] [] [] []]; now constructor.
    + destruct (Str.is_linebreak a) eqn:Ha.
      * constructor; [exact Hrev|]. apply IH; [lia|reflexivity].
      * apply IH; [lia|]. cbn [no_linebreak]. now rewrite Ha, Hcur.
Qed.

Lemma splitlines_no_linebreak (s : string) :
  Forall (fun l => no_linebreak l = true) (Str.splitlines s).
Proof.
  apply (splitlines_go_no_linebreak (String.length s)); [lia|reflexivity].
Qed.

End Lines.

Section ReadLines.

Variable _resolve : string -> string.

(** X16. What a ranged [file_read] returns is the lines [start, end) of the
    file joined by ["\n"], [end - start] of them; split into lines again it
    gives exactly these lines, unless the last of them is empty (a final
    empty line does not survive the join). *)
Theorem file_read_resplit (fs : gmap string node) (file content out : string)
    (start_line end_line : option Z) (sudo : bool) :
  fs !! _resolve file = Some (File content) ->
  start_line <> None \/ end_line <> None ->
  fst (file_read _resolve file start_line end_line sudo fs) = inr out ->
  let lines := Str.splitlines content in
  let start := default 0 start_line in
  let end_ := default (Z.of_nat (length lines)) end_line in
  let sel := take (Z.to_nat (end_ - start)) (drop (Z.to_nat start) lines) in
  out = Str.join NL sel
  /\ Z.of_nat (length sel) = end_ - start
  /\ (last sel <> Some "" -> Str.splitlines out = sel).
Proof.
  intros Hfile Hgiven Hout lines start end_ sel.
  rewrite (file_read_file _ _ _ _ _ _ _ Hfile) in Hout. cbn [fst] in Hout.
  assert (Hgiven' : negb (bool_decide (start_line = None))
                    || negb (bool_decide (end_line = None)) = true).
  { destruct start_line, end_line; try reflexivity.
    destruct Hgiven; congruence. }
  rewrite Hgiven' in Hout. cbv zeta in Hout.
  fold lines in Hout. fold start in Hout. fold end_ in Hout.
  pose proof (range_test start end_ (Z.of_nat (length lines))) as Htest.
  destruct ((start <? 0) || (Z.of_nat (length lines) <? end_)
            || (end_ <=? start)); [discriminate|].
  assert (Hgood : 0 <= start /\ start < end_
                  /\ end_ <= Z.of_nat (length lines)).
  { destruct (Z.lt_ge_cases start 0); [exfalso|].
    { assert (true = false) by (symmetry; apply Htest; auto).
      discriminate. }
    destruct (Z.lt_ge_cases (Z.of_nat (length lines)) end_); [exfalso|].
    { assert (false = true) as Habs by (apply Htest; lia). discriminate. }
    destruct (Z.lt_ge_cases start end_); [lia|exfalso].
    assert (false = true) as Habs by (apply Htest; lia). discriminate. }
  rewrite slice_in_range in Hout by lia. injection Hout as <-.
  fold sel. split; [reflexivity|]. split.
  - unfold sel. rewrite length_take, length_drop. lia.
  - intros Hlast. apply Lines.splitlines_join; [|exact Hlast].
    unfold sel. apply Forall_take, Forall_drop.
    apply Lines.splitlines_no_linebreak.
Qed.

End ReadLines.

Lemma file_read_resplit_witness :
  Str.splitlines ("l1" +:+ NL +:+ "l2") = ["l1"; "l2"].
Proof.
  destruct (file_read_resplit resolve_id demo_fs "/five.txt" text_five
              ("l1" +:+ NL +:+ "l2") (Some 1) (Some 3) false)
    as (_ & _ & Hsplit);
    [reflexivity|left; discriminate|reflexivity|].
  apply Hsplit. discriminate.
Defined.

(** ** Tool descriptions and the event loop *)

Section DescriptionProperties.

Variable V : Type.
Variable py_str : V -> string.
Variable json_loads : string -> option (pyargs V).
Variable rule : string.

Lemma tool_description_keys (name : string) :
  is_Some (tool_description_map V py_str !! name)
  <-> name ∈ agent_tool_names.
Proof.
  split.
  - intros [f Hf]. apply elem_of_list_to_map_2 in Hf.
    repeat (apply elem_of_cons in Hf as [Hf|Hf];
            [injection Hf as -> _; apply list_elem_of_In; simpl; tauto|]).
    now apply elem_of_nil in Hf.
  - intros Hin. unfold agent_tool_names in Hin.
    repeat (apply elem_of_cons in Hin as [->|Hin];
            [eexists; reflexivity|]).
    now apply elem_of_nil in Hin.
Qed.

(** X17. The description map and the agent agree: a tool name has an entry
    in [tool_description_map] exactly when [build_agent] registers a tool of
    that name, so no tool of the agent is logged through the fallback. *)
Theorem tool_descriptions_cover_agent_tools (name : string) :
  is_Some (tool_description_map V py_str !! name)
  <-> name ∈ agent_tool_names.
Proof. exact (tool_description_keys name). Qed.

(** X18. [get_tool_description] never raises on a dict of arguments,
    whatever the tool name and whichever keys are there; an argument that is
    missing is printed as [None]; and a name that is no tool of the agent
    gets the generic label, whatever the arguments are. *)
Theorem get_tool_description_total (name : string) :
  (forall d, exists s,
     get_tool_description V py_str name (ArgsDict d) = Some s)
  /\ (forall d, d !! "file" = None ->
        get_tool_description V py_str "file_read" (ArgsDict d)
        = Some "Reading file None")
  /\ (name ∉ agent_tool_names ->
      forall args,
        get_tool_description V py_str name args
        = Some ("Using tool: " +:+ name)).
Proof.
  split; [|split].
  - intros d. unfold get_tool_description.
    destruct (tool_description_map V py_str !! name) as [f|] eqn:Hf;
      [|eauto].
    apply elem_of_list_to_map_2 in Hf.
    repeat (apply elem_of_cons in Hf as [Hf|Hf];
            [injection Hf as _ ->; simpl; eauto|]).
    now apply elem_of_nil in Hf.
  - intros d Hd. unfold get_tool_description.
    change (tool_description_map V py_str !! "file_read")
      with (Some (fun args : pyargs V =>
                    p ← args_get V py_str args "file";
                    Some ("Reading file " +:+ p))).
    simpl. now rewrite Hd.
  - intros Hname args. unfold get_tool_description.
    destruct (tool_description_map V py_str !! name) as [f|] eqn:Hf;
      [|reflexivity].
    destruct Hname. apply tool_description_keys. eauto.
Qed.

Lemma print_tool_call_goes_on (name : string) (arguments : option string) :
  name <> "agent_end_task" ->
  exists d extra,
    print_tool_call V py_str json_loads (FunctionToolCall name arguments)
    = (("[Tool Call] " +:+ d) :: extra, true)
    /\ (json_loads (default "{}" arguments) = None ->
        d = name /\ extra = ["Arguments: " +:+ default "{}" arguments]).
Proof.
  intros Hname. unfold print_tool_call.
  rewrite bool_decide_false by assumption.
  destruct (json_loads (default "{}" arguments)) as [args|] eqn:Hargs;
    cbn [mbind option_bind].
  - destruct (get_tool_description V py_str name args) as [d|].
    + exists d, []. split; [reflexivity|discriminate].
    + exists name, ["Arguments: " +:+ default "{}" arguments].
      split; [reflexivity|discriminate].
  - exists name, ["Arguments: " +:+ default "{}" arguments].
    split; [reflexivity|auto].
Qed.

Lemma stream_loop_cons_go_on (e : StreamEvent) (rest : list StreamEvent) :
  is_end_task_call e = false ->
  exists lines,
    forall rest',
      stream_loop V py_str json_loads rule (e :: rest')
      = (lines ++ stream_loop V py_str json_loads rule rest')%list.
Proof.
  intros Hend. destruct e as [name|[raw|text|]|].
  - exists [NL +:+ rule +:+ " Switched to agent: " +:+ name +:+ " "
            +:+ rule +:+ NL].
    intros rest'. reflexivity.
  - destruct raw as [code|name arguments].
    + exists ["====Code Interpreter Call====="; code;
              "====End of Code Interpreter Call====="].
      intros rest'. reflexivity.
    + cbn [is_end_task_call] in Hend. apply bool_decide_eq_false in Hend.
      destruct (print_tool_call_goes_on name arguments Hend)
        as (d & extra & Hprint & _).
      exists (("[Tool Call] " +:+ d) :: extra). intros rest'.
      cbn [stream_loop]. now rewrite Hprint.
  - exists ["[Assistant] " +:+ text]. intros rest'. reflexivity.
  - exists []. intros rest'. reflexivity.
  - exists []. intros rest'. reflexivity.
Qed.

(** X19. The loop ends at the first call of [agent_end_task]: it prints the
    end marker and nothing of what any later event would print; what was
    printed before is what the events before that call print on their
    own. *)
Theorem stream_loop_stops_at_end_task (pre post : list StreamEvent)
    (arguments : option string) :
  forallb (fun e => negb (is_end_task_call e)) pre = true ->
  stream_loop V py_str json_loads rule
    (pre ++ RunItemStreamEvent
              (ToolCallItem (FunctionToolCall "agent_end_task" arguments))
         :: post)%list
  = (stream_loop V py_str json_loads rule pre
     ++ ["====End of Task====="])%list.
Proof.
  induction pre as [|e pre IH]; intros Hpre.
  - reflexivity.
  - cbn [forallb] in Hpre. apply andb_prop in Hpre as [He Hpre].
    apply negb_true_iff in He.
    destruct (stream_loop_cons_go_on e pre He) as [lines Hlines].
    rewrite <- app_comm_cons, !Hlines, IH by assumption.
    now rewrite app_assoc.
Qed.

(** X20. Every call of a function tool other than [agent_end_task] is
    reported by a line that starts with "[Tool Call] ", and the loop goes
    on to the next event; when the arguments do not decode, the line names
    the tool and a second line shows the raw arguments. *)
Theorem stream_loop_reports_tool_call (name : string)
    (arguments : option string) (rest : list StreamEvent) :
  name <> "agent_end_task" ->
  exists d extra,
    stream_loop V py_str json_loads rule
      (RunItemStreamEvent (ToolCallItem (FunctionToolCall name arguments))
       :: rest)
    = ((("[Tool Call] " +:+ d) :: extra)
       ++ stream_loop V py_str json_loads rule rest)%list
    /\ (json_loads (default "{}" arguments) = None ->
        d = name /\ extra = ["Arguments: " +:+ default "{}" arguments]).
Proof.
  intros Hname.
  destruct (print_tool_call_goes_on name arguments Hname)
    as (d & extra & Hprint & Hfail).
  exists d, extra. split; [|exact Hfail].
  cbn [stream_loop]. now rewrite Hprint.
Qed.

End DescriptionProperties.

Lemma stream_loop_stops_at_end_task_witness :
  stream_loop string (fun s => s) json_loads_demo "--"
    (demo_events_before
     ++ RunItemStreamEvent
          (ToolCallItem (FunctionToolCall "agent_end_task" (Some "{}")))
        :: demo_events_after)%list
  = [ "[Assistant] Working on it."; "[Tool Call] Reading file None";
      "====End of Task=====" ].
Proof.
  rewrite (stream_loop_stops_at_end_task string (fun s => s) json_loads_demo "--"
             demo_events_before demo_events_after (Some "{}"));
    reflexivity.
Defined.

Lemma stream_loop_reports_tool_call_witness :
  exists d extra,
    stream_loop string (fun s => s) json_loads_demo "--"
      [ RunItemStreamEvent
          (ToolCallItem (FunctionToolCall "file_write" (Some "not json"))) ]
    = ((("[Tool Call] " +:+ d) :: extra) ++ [])%list
    /\ d = "file_write" /\ extra = ["Arguments: not json"].
Proof.
  destruct (stream_loop_reports_tool_call string (fun s => s) json_loads_demo "--"
              "file_write" (Some "not json") [])
    as (d & extra & Hrun & Hfail); [discriminate|].
  exists d, extra. split; [exact Hrun|]. apply Hfail. reflexivity.
Defined.

(** ** The hook after a phase was skipped *)

(** C1 (the failing input). The plan is created in phase 1 and the hook
    fires; in a later turn [agent_update_plan] moves the plan to phase 3, the
    tool that the docstring of [agent_advance_phase] names for skipping a
    phase, and the hook fires again.  Both firings return.  The hook holds
    the phase that is left, 1, but looks for the clause of phase 3 - 1 = 2:
    the clause of phase 1 stays in the instruction text and that of phase 3
    is appended, so the text holds two phase clauses, not one. *)
Theorem hook_keeps_clause_of_phase_left :
  let st1 := snd (agent_update_plan Phase_repr_plain (Some 1)
                    (Some "write report") (Some demo_phases) _agent_state) in
  let r1 := on_tool_end Phase_str_plain st1
              (StepPromptHook_init "Be helpful.") in
  let st2 := snd (agent_update_plan Phase_repr_plain (Some 3) None None st1) in
  let r2 := on_tool_end Phase_str_plain st2 (snd r1) in
  fst r1 = inr tt
  /\ self_current_phase_id (snd r1) = Some 1
  /\ fst r2 = inr tt
  /\ current_phase_id st2 = Some 3
  /\ self_current_phase_id (snd r2) = Some 3
  /\ agent_instructions (snd r2)
     = "Be helpful." +:+ NL +:+ NL
       +:+ phase_clause Phase_str_plain 1 (Some "write report")
             {| id := 1; title := "research";
                required_capabilities := "web-search" |}
       +:+ NL +:+ NL
       +:+ phase_clause Phase_str_plain 3 (Some "write report")
             {| id := 3; title := "archive"; required_capabilities := "" |}
  /\ ~ single_clause Phase_str_plain st2 (agent_instructions (snd r2)).
Proof.
  cbv zeta. do 5 (split; [reflexivity|]). split; [vm_compute; reflexivity|].
  intros (k & Hk & _ & Hall).
  assert (k = 3) as -> by (vm_compute in Hk; congruence).
  destruct (Hall 0%nat _ eq_refl) as [_ Habs].
  assert (Z.of_nat 1 <> 3) as Hne by lia.
  specialize (Habs Hne). vm_compute in Habs. discriminate.
Qed.
